(** * InstaFrame: the square-canvas compositor, the crop transform and the gallery

    A shallow embedding of the three revisions of [App.tsx] kept in the
    repository:

    - [Single]  (src/unnamed/part_000): one image at a time, [processAndSetImage];
    - [Batch]   (src/App.tsx): a list of formatted images, [processImageDataUrl]
                and [handleFiles];
    - [Gallery] (src/unnamed/part_001): entries with an id, the original and the
                formatted image; [getCroppedImg], [addBorderToImage],
                [handleFiles], [handleCropClick], [handleApplyCrop].

    JavaScript numbers are kept abstract behind the class [JSNumber], so every
    function is written once and can be run both in exact rational arithmetic
    ([Q], used for the general theorems) and in IEEE-754 binary64
    (primitive [float], used to replay the concrete scenarios with the
    rounding a browser performs).

    React state is modelled the way React treats it: an event handler reads
    the state captured by its closure and emits a sequence of state updates
    ([Update]); the updates are applied in order afterwards ([run]), and
    [states] lists every intermediate state a consumer could observe (React
    may batch updates and show fewer).  A handler is followed from its first
    statement to its last: the [await]s are resolved in place, each [onload]
    callback runs to completion before the next, and the updates of other
    handlers are not interleaved.

    What the browser does behind the DOM calls is modelled as far as the
    program relies on it: decoding succeeds or fails per data URL, a canvas
    remembers its size and what was drawn on it since its size was last set,
    and [toDataURL] of a canvas without pixels is the empty data URL.  A
    canvas dimension is an IDL [unsigned long]: the number assigned to it is
    converted the way Web IDL converts it, and replaced by the default of
    the attribute when it does not fit. *)

From Stdlib Require Import ZArith QArith Qround Lia Lqa Bool List String Floats Uint63.
From Stdlib Require Import Permutation.
Import ListNotations.

Set Implicit Arguments.
Open Scope string_scope.
Open Scope list_scope.
Open Scope Q_scope.

(** ** JavaScript numbers *)

Class JSNumber (N : Type) : Type := {
  js_lit : Q -> N;               (* a numeric literal of the source text *)
  js_sub : N -> N -> N;          (* a - b *)
  js_mul : N -> N -> N;          (* a * b *)
  js_div : N -> N -> N;          (* a / b *)
  js_gtb : N -> N -> bool;       (* a > b *)
  js_eqb : N -> N -> bool;       (* a === b *)
  Math_floor : N -> N;           (* Math.floor(a) *)
  ToUint32 : N -> Z              (* the conversion to an IDL unsigned long *)
}.

Declare Scope js_scope.
Delimit Scope js_scope with js.
Notation "a - b" := (js_sub a b) : js_scope.
Notation "a * b" := (js_mul a b) : js_scope.
Notation "a / b" := (js_div a b) : js_scope.
Notation "a >? b" := (js_gtb a b) (at level 70, no associativity) : js_scope.
Notation "a === b" := (js_eqb a b) (at level 70, no associativity) : js_scope.
Notation "! q" := (js_lit q%Q) (at level 1, q at level 0, format "! q") : js_scope.

(** Exact arithmetic: every operation the program uses is rational.
    Division by zero gives 0 here and an infinity or NaN in binary64; the
    theorems that need a quotient to mean division assume positive sizes. *)
#[export] Instance Q_number : JSNumber Q := {|
  js_lit := fun q => q;
  js_sub := Qminus;
  js_mul := Qmult;
  js_div := Qdiv;
  js_gtb := fun a b => negb (Qle_bool a b);
  js_eqb := Qeq_bool;
  Math_floor := fun a => inject_Z (Qfloor a);
  ToUint32 := fun a => (Z.quot (Qnum a) (Zpos (Qden a)) mod 4294967296)%Z
|}.

(** IEEE-754 binary64, the arithmetic of the JavaScript engine. *)
Definition float_of_Z (z : Z) : float :=
  match z with
  | Z0 => 0%float
  | Zpos _ => PrimFloat.of_uint63 (Uint63.of_Z z)
  | Zneg p => PrimFloat.opp (PrimFloat.of_uint63 (Uint63.of_Z (Zpos p)))
  end.

(** A literal [n/d] is read as the correctly rounded quotient of two exactly
    representable integers, which is the binary64 value nearest to it. *)
Definition float_lit (q : Q) : float :=
  PrimFloat.div (float_of_Z (Qnum q)) (float_of_Z (Zpos (Qden q))).

(** [Math.floor] on binary64: a finite value with a negative exponent is
    cut at the binary point (and stepped down when negative and inexact);
    integers, zeros, infinities and NaN are returned as they are. *)
Definition float_floor (f : float) : float :=
  match Prim2SF f with
  | S754_finite s m e =>
      if (0 <=? e)%Z then f
      else
        let q := Z.shiftr (Zpos m) (- e) in
        let exact := (Z.shiftl q (- e) =? Zpos m)%Z in
        if s then float_of_Z (- (if exact then q else q + 1))
        else float_of_Z q
  | _ => f
  end.

(** The conversion of a number to an IDL [unsigned long] (ECMAScript
    ToUint32): NaN, the zeros and the infinities give 0; any other value is
    truncated towards zero and reduced modulo 2^32. *)
Definition float_ToUint32 (f : float) : Z :=
  match Prim2SF f with
  | S754_finite s m e =>
      let magnitude :=
        if (0 <=? e)%Z then Z.shiftl (Zpos m) e else Z.shiftr (Zpos m) (- e) in
      ((if s then - magnitude else magnitude) mod 4294967296)%Z
  | _ => 0%Z
  end.

#[export] Instance float_number : JSNumber float := {|
  js_lit := float_lit;
  js_sub := PrimFloat.sub;
  js_mul := PrimFloat.mul;
  js_div := PrimFloat.div;
  js_gtb := fun a b => PrimFloat.ltb b a;
  js_eqb := PrimFloat.eqb;
  Math_floor := float_floor;
  ToUint32 := float_ToUint32
|}.

(** ** Results of fallible operations

    [throw new Error(m)] and a rejected promise both carry a message. *)

Inductive Result (A : Type) : Type :=
| Ok (value : A)
| Err (message : string).
Arguments Err {A} message.

(** [Promise.all]: the values in order, or a rejection.  When several
    promises reject, the model reports the first one of the list; for the
    promises of [Gallery.processAndAddImages] the list is in the order in
    which they are settled. *)
Fixpoint Promise_all {A} (rs : list (Result A)) : Result (list A) :=
  match rs with
  | [] => Ok []
  | r :: rest =>
      match r, Promise_all rest with
      | Err m, _ => Err m
      | Ok _, Err m => Err m
      | Ok a, Ok l => Ok (a :: l)
      end
  end.

(** ** The browser: data URLs, images, canvases, files *)

Section Browser.
Context {N : Type} `{JSNumber N}.
Local Open Scope string_scope.
Local Open Scope list_scope.
Local Open Scope js_scope.

(** A data URL, by what it holds.  Canvas output is kept symbolically as the
    canvas size and the drawing operations since the last reset, so two
    byte-identical URLs are equal terms. *)
Inductive DataUrl : Type :=
| Photo (width height : N) (serial : nat)     (* an encoded picture from outside *)
| Corrupt (serial : nat)                      (* bytes no decoder accepts *)
| EmptyData                                   (* the string data:, *)
| CanvasPng (width height : N) (ops : list DrawOp)
with DrawOp : Type :=
| FillRect (style : string) (x y w h : N)
| DrawImage5 (image : DataUrl) (dx dy dw dh : N)
| DrawImage9 (image : DataUrl) (sx sy sw sh dx dy dw dh : N).

(** An image element.  [width]/[height] are the rendered size; for an image
    that is not in the document they are the natural size. *)
Record HTMLImageElement : Type := {
  src : DataUrl;
  naturalWidth : N;
  naturalHeight : N;
  width : N;
  height : N
}.

(** [new Image(); image.src = url]: [Some] is [onload], [None] is [onerror]. *)
Definition loadImage (url : DataUrl) : option HTMLImageElement :=
  match url with
  | Photo w h _ | CanvasPng w h _ =>
      Some {| src := url; naturalWidth := w; naturalHeight := h; width := w; height := h |}
  | Corrupt _ | EmptyData => None
  end.

Record Canvas : Type := {
  canvas_width : N;
  canvas_height : N;
  context2d : bool;          (* whether getContext('2d') returns a context *)
  fillStyle : string;
  drawn : list DrawOp
}.

(** [document.createElement('canvas')] *)
Definition createCanvas (has2d : bool) : Canvas :=
  {| canvas_width := !300; canvas_height := !150; context2d := has2d;
     fillStyle := "#000000"; drawn := [] |}.

(** What a canvas dimension holds after [value] is assigned to it.  The
    IDL attribute is an [unsigned long] that reflects a content attribute:
    the number is converted as Web IDL converts to [unsigned long], and a
    result above 2147483647 is replaced by the default of the attribute
    (300 for the width, 150 for the height). *)
Definition reflectedDimension (fallback : Z) (value : N) : N :=
  let n := ToUint32 value in
  js_lit (inject_Z (if (2147483647 <? n)%Z then fallback else n)).

(** Assigning a dimension clears the bitmap and resets the context state. *)
Definition set_width (c : Canvas) (w : N) : Canvas :=
  {| canvas_width := reflectedDimension 300 w; canvas_height := canvas_height c;
     context2d := context2d c; fillStyle := "#000000"; drawn := [] |}.

Definition set_height (c : Canvas) (h : N) : Canvas :=
  {| canvas_width := canvas_width c; canvas_height := reflectedDimension 150 h;
     context2d := context2d c; fillStyle := "#000000"; drawn := [] |}.

Definition set_fillStyle (c : Canvas) (style : string) : Canvas :=
  {| canvas_width := canvas_width c; canvas_height := canvas_height c;
     context2d := context2d c; fillStyle := style; drawn := drawn c |}.

Definition paint (c : Canvas) (op : DrawOp) : Canvas :=
  {| canvas_width := canvas_width c; canvas_height := canvas_height c;
     context2d := context2d c; fillStyle := fillStyle c; drawn := drawn c ++ [op] |}.

Definition fillRect (c : Canvas) (x y w h : N) : Canvas :=
  paint c (FillRect (fillStyle c) x y w h).

Definition drawImage5 (c : Canvas) (image : HTMLImageElement) (dx dy dw dh : N) : Canvas :=
  paint c (DrawImage5 (src image) dx dy dw dh).

Definition drawImage9 (c : Canvas) (image : HTMLImageElement)
    (sx sy sw sh dx dy dw dh : N) : Canvas :=
  paint c (DrawImage9 (src image) sx sy sw sh dx dy dw dh).

(** [canvas.toDataURL('image/png')]: a canvas without pixels gives data:, *)
Definition toDataURL (c : Canvas) : DataUrl :=
  if (canvas_width c === !0) || (canvas_height c === !0) then EmptyData
  else CanvasPng (canvas_width c) (canvas_height c) (drawn c).

(** The constants of the compositor: [const canvasSize = 1080] (the
    Instagram square post size) and [const padding = 0.9] (a 10% border),
    the same in the three revisions. *)
Definition canvasSize : N := !1080.
Definition padding : N := !0.9.

(** A selected file: its MIME type, and what a FileReader gets out of it. *)
Record File : Type := {
  file_name : string;
  file_type : string;
  file_data : option DataUrl       (* [None]: the read fails *)
}.

(** [file.type.startsWith('image/')] *)
Definition isImageFile (file : File) : bool :=
  String.prefix "image/" (file_type file).

End Browser.

Arguments DataUrl N : clear implicits.
Arguments DrawOp N : clear implicits.
Arguments HTMLImageElement N : clear implicits.
Arguments Canvas N : clear implicits.
Arguments File N : clear implicits.

(** [AspectRatio] of ./types, as the array [aspectRatios] lists it. *)
Inductive AspectRatio : Type :=
| Ratio_1_1 | Ratio_3_4 | Ratio_4_3 | Ratio_9_16 | Ratio_16_9.

(** ** Revision 1 (src/unnamed/part_000): a single image *)

Module Single.
Section WithNumbers.
Context {N : Type} `{JSNumber N}.
Local Open Scope string_scope.
Local Open Scope list_scope.
Local Open Scope js_scope.

Record AppState : Type := {
  originalImage : option (DataUrl N);
  formattedImageUrl : option (DataUrl N);
  isLoading : bool;
  error : option string
}.

Inductive Update : Type :=
| SetOriginalImage (v : option (DataUrl N))
| SetFormattedImageUrl (v : option (DataUrl N))
| SetIsLoading (v : bool)
| SetError (v : option string).

Definition apply (u : Update) (s : AppState) : AppState :=
  match u with
  | SetOriginalImage v =>
      {| originalImage := v; formattedImageUrl := formattedImageUrl s;
         isLoading := isLoading s; error := error s |}
  | SetFormattedImageUrl v =>
      {| originalImage := originalImage s; formattedImageUrl := v;
         isLoading := isLoading s; error := error s |}
  | SetIsLoading v =>
      {| originalImage := originalImage s; formattedImageUrl := formattedImageUrl s;
         isLoading := v; error := error s |}
  | SetError v =>
      {| originalImage := originalImage s; formattedImageUrl := formattedImageUrl s;
         isLoading := isLoading s; error := v |}
  end.

Definition run (us : list Update) (s : AppState) : AppState :=
  fold_left (fun s u => apply u s) us s.

(** [processAndSetImage]: the updates it issues and the shared canvas
    ([canvasRef.current]) afterwards. *)
Definition processAndSetImage (canvasRef : option (Canvas N)) (imageDataUrl : DataUrl N)
    : list Update * option (Canvas N) :=
  match loadImage imageDataUrl with
  | None =>
      ([SetError (Some "The file could not be loaded as an image. It might be corrupted or in an unsupported format.");
        SetIsLoading false], canvasRef)
  | Some image =>
      match canvasRef with
      | None => ([SetError (Some "Canvas element not found.")], canvasRef)
      | Some canvas =>
          if negb (context2d canvas)
          then ([SetError (Some "Could not get canvas context.")], canvasRef)
          else
            let canvas := set_width canvas canvasSize in
            let canvas := set_height canvas canvasSize in
            let canvas := set_fillStyle canvas "white" in
            let canvas := fillRect canvas !0 !0 canvasSize canvasSize in
            let imageAspectRatio := width image / height image in
            let '(drawWidth, drawHeight) :=
              if imageAspectRatio >? !1 then
                let drawWidth := canvasSize * padding in
                let drawHeight := drawWidth / imageAspectRatio in
                (drawWidth, drawHeight)
              else
                let drawHeight := canvasSize * padding in
                let drawWidth := drawHeight * imageAspectRatio in
                (drawWidth, drawHeight) in
            let x := (canvasSize - drawWidth) / !2 in
            let y := (canvasSize - drawHeight) / !2 in
            let canvas := drawImage5 canvas image x y drawWidth drawHeight in
            ([SetFormattedImageUrl (Some (toDataURL canvas));
              SetOriginalImage (Some imageDataUrl);
              SetError None;
              SetIsLoading false], Some canvas)
      end
  end.

(** The [useState] initial values. *)
Definition initialState : AppState :=
  {| originalImage := None; formattedImageUrl := None; isLoading := false; error := None |}.

(** [handleFile]; [None] is a missing file.  A FileReader whose read fails
    fires [error] and then [loadend], with [reader.result] null. *)
Definition handleFile (canvasRef : option (Canvas N)) (file : option (File N))
    : list Update * option (Canvas N) :=
  match file with
  | None => ([], canvasRef)
  | Some file =>
      if negb (String.eqb (file_type file) "") && isImageFile file then
        match file_data file with
        | Some result =>
            let (us, canvasRef') := processAndSetImage canvasRef result in
            ([SetIsLoading true; SetError None] ++ us, canvasRef')
        | None =>
            ([SetIsLoading true; SetError None;
              SetError (Some "Failed to read the selected file."); SetIsLoading false;
              SetError (Some "Failed to read image data."); SetIsLoading false], canvasRef)
        end
      else
        ([SetError (Some "Invalid file type. Please upload an image (e.g., JPEG, PNG, GIF).")],
         canvasRef)
  end.

(** [handleGenerate]; [generateImage] is the remote service. *)
Definition handleGenerate (canvasRef : option (Canvas N)) (prompt : string)
    (aspectRatio : AspectRatio)
    (generateImage : string -> AspectRatio -> Result (DataUrl N))
    : list Update * option (Canvas N) :=
  if String.eqb prompt "" then
    ([SetError (Some "Please enter a prompt to generate an image.")], canvasRef)
  else
    match generateImage prompt aspectRatio with
    | Ok generatedDataUrl =>
        let (us, canvasRef') := processAndSetImage canvasRef generatedDataUrl in
        ([SetIsLoading true; SetError None; SetFormattedImageUrl None; SetOriginalImage None]
         ++ us, canvasRef')
    | Err m =>
        ([SetIsLoading true; SetError None; SetFormattedImageUrl None; SetOriginalImage None;
          SetError (Some m); SetIsLoading false], canvasRef)
    end.

(** What [ImagePreview] renders. *)
Inductive Preview : Type :=
| Spinner
| ErrorBox (message : string)
| Picture (url : DataUrl N)
| Placeholder.

Definition truthy (error : option string) : option string :=
  match error with
  | Some m => if String.eqb m "" then None else Some m
  | None => None
  end.

Definition ImagePreview (formattedImageUrl : option (DataUrl N)) (isLoading : bool)
    (error : option string) : Preview :=
  if isLoading then Spinner
  else
    match truthy error with
    | Some m => ErrorBox m
    | None =>
        match formattedImageUrl with
        | Some url => Picture url
        | None => Placeholder
        end
    end.

(** The preview of [App]. *)
Definition preview (s : AppState) : Preview :=
  ImagePreview (formattedImageUrl s) (isLoading s) (error s).

End WithNumbers.
Arguments AppState N : clear implicits.
Arguments Update N : clear implicits.
Arguments Preview N : clear implicits.
End Single.

(** ** Revision 2 (src/App.tsx): a batch of formatted images *)

Module Batch.
Section WithNumbers.
Context {N : Type} `{JSNumber N}.
Local Open Scope string_scope.
Local Open Scope list_scope.
Local Open Scope js_scope.

Record AppState : Type := {
  formattedImageUrls : list (DataUrl N);
  isLoading : bool;
  error : option string
}.

Inductive Update : Type :=
| SetFormattedImageUrls (v : list (DataUrl N))
| SetIsLoading (v : bool)
| SetError (v : option string).

Definition apply (u : Update) (s : AppState) : AppState :=
  match u with
  | SetFormattedImageUrls v =>
      {| formattedImageUrls := v; isLoading := isLoading s; error := error s |}
  | SetIsLoading v =>
      {| formattedImageUrls := formattedImageUrls s; isLoading := v; error := error s |}
  | SetError v =>
      {| formattedImageUrls := formattedImageUrls s; isLoading := isLoading s; error := v |}
  end.

Definition run (us : list Update) (s : AppState) : AppState :=
  fold_left (fun s u => apply u s) us s.

(** The [useState] initial values. *)
Definition initialState : AppState :=
  {| formattedImageUrls := []; isLoading := false; error := None |}.

(** [processImageDataUrl]: the promise's outcome and the shared canvas. *)
Definition processImageDataUrl (canvasRef : option (Canvas N)) (imageDataUrl : DataUrl N)
    : Result (DataUrl N) * option (Canvas N) :=
  match loadImage imageDataUrl with
  | None =>
      (Err "The image file could not be loaded. It may be corrupt or an unsupported format.",
       canvasRef)
  | Some image =>
      match canvasRef with
      | None => (Err "Canvas element not found.", canvasRef)
      | Some canvas =>
          if negb (context2d canvas)
          then (Err "Could not get canvas context.", canvasRef)
          else
            let canvas := set_width canvas canvasSize in
            let canvas := set_height canvas canvasSize in
            let canvas := set_fillStyle canvas "white" in
            let canvas := fillRect canvas !0 !0 canvasSize canvasSize in
            let imageAspectRatio := width image / height image in
            let '(drawWidth, drawHeight) :=
              if imageAspectRatio >? !1 then
                let drawWidth := canvasSize * padding in
                let drawHeight := drawWidth / imageAspectRatio in
                (drawWidth, drawHeight)
              else
                let drawHeight := canvasSize * padding in
                let drawWidth := drawHeight * imageAspectRatio in
                (drawWidth, drawHeight) in
            let x := (canvasSize - drawWidth) / !2 in
            let y := (canvasSize - drawHeight) / !2 in
            let canvas := drawImage5 canvas image x y drawWidth drawHeight in
            (Ok (toDataURL canvas), Some canvas)
      end
  end.

Definition readSingleFile (file : File N) : Result (DataUrl N) :=
  match file_data file with
  | Some result => Ok result
  | None => Err "Failed to read the selected file."
  end.

(** [imageDataUrls.map(processImageDataUrl)]: every promise is started, and
    each [onload] handler runs to completion on the shared canvas. *)
Fixpoint processEach (canvasRef : option (Canvas N)) (urls : list (DataUrl N))
    : list (Result (DataUrl N)) * option (Canvas N) :=
  match urls with
  | [] => ([], canvasRef)
  | url :: rest =>
      let (r, canvasRef1) := processImageDataUrl canvasRef url in
      let (rs, canvasRef2) := processEach canvasRef1 rest in
      (r :: rs, canvasRef2)
  end.

(** [handleFiles]; [None] is the [null] FileList. *)
Definition handleFiles (canvasRef : option (Canvas N)) (files : option (list (File N)))
    : list Update * option (Canvas N) :=
  match files with
  | None | Some [] => ([], canvasRef)
  | Some files =>
      let started := [SetIsLoading true; SetError None; SetFormattedImageUrls []] in
      let imageFiles := filter isImageFile files in
      match imageFiles with
      | [] =>
          (started ++
           [SetError (Some "No valid image files selected. Please upload JPEG, PNG, or GIF files.");
            SetIsLoading false], canvasRef)
      | _ =>
          match Promise_all (map readSingleFile imageFiles) with
          | Err m => (started ++ [SetError (Some m); SetIsLoading false], canvasRef)
          | Ok imageDataUrls =>
              let (rs, canvasRef') := processEach canvasRef imageDataUrls in
              match Promise_all rs with
              | Err m => (started ++ [SetError (Some m); SetIsLoading false], canvasRef')
              | Ok processedUrls =>
                  (started ++ [SetFormattedImageUrls processedUrls; SetIsLoading false],
                   canvasRef')
              end
          end
      end
  end.

End WithNumbers.
Arguments AppState N : clear implicits.
Arguments Update N : clear implicits.
End Batch.

(** ** Revision 3 (src/unnamed/part_001): the gallery with cropping *)

Module Gallery.
Section WithNumbers.
Context {N : Type} `{JSNumber N}.
Local Open Scope string_scope.
Local Open Scope list_scope.
Local Open Scope js_scope.

Record ImageState : Type := {
  id : string;
  originalSrc : DataUrl N;
  formattedSrc : DataUrl N
}.

(** [Crop] and [PixelCrop] of react-image-crop: a rectangle and its unit. *)
Record Crop : Type := {
  crop_unit : string;
  crop_x : N;
  crop_y : N;
  crop_width : N;
  crop_height : N
}.
Definition PixelCrop : Type := Crop.

Record AppState : Type := {
  images : list ImageState;
  isLoading : bool;
  error : option string;
  currentImageIndex : N;
  croppingImage : option ImageState;
  crop : option Crop;
  completedCrop : option PixelCrop;
  cropAspectRatio : option N
}.

Inductive Update : Type :=
| SetImages (v : list ImageState)
| UpdateImages (f : list ImageState -> list ImageState)   (* setImages(prev => ...) *)
| SetIsLoading (v : bool)
| SetError (v : option string)
| SetCurrentImageIndex (v : N)
| SetCroppingImage (v : option ImageState)
| SetCrop (v : option Crop)
| SetCompletedCrop (v : option PixelCrop)
| SetCropAspectRatio (v : option N).

Definition with_images (s : AppState) (v : list ImageState) : AppState :=
  {| images := v; isLoading := isLoading s; error := error s;
     currentImageIndex := currentImageIndex s; croppingImage := croppingImage s;
     crop := crop s; completedCrop := completedCrop s;
     cropAspectRatio := cropAspectRatio s |}.

Definition apply (u : Update) (s : AppState) : AppState :=
  match u with
  | SetImages v => with_images s v
  | UpdateImages f => with_images s (f (images s))
  | SetIsLoading v =>
      {| images := images s; isLoading := v; error := error s;
         currentImageIndex := currentImageIndex s; croppingImage := croppingImage s;
         crop := crop s; completedCrop := completedCrop s;
         cropAspectRatio := cropAspectRatio s |}
  | SetError v =>
      {| images := images s; isLoading := isLoading s; error := v;
         currentImageIndex := currentImageIndex s; croppingImage := croppingImage s;
         crop := crop s; completedCrop := completedCrop s;
         cropAspectRatio := cropAspectRatio s |}
  | SetCurrentImageIndex v =>
      {| images := images s; isLoading := isLoading s; error := error s;
         currentImageIndex := v; croppingImage := croppingImage s;
         crop := crop s; completedCrop := completedCrop s;
         cropAspectRatio := cropAspectRatio s |}
  | SetCroppingImage v =>
      {| images := images s; isLoading := isLoading s; error := error s;
         currentImageIndex := currentImageIndex s; croppingImage := v;
         crop := crop s; completedCrop := completedCrop s;
         cropAspectRatio := cropAspectRatio s |}
  | SetCrop v =>
      {| images := images s; isLoading := isLoading s; error := error s;
         currentImageIndex := currentImageIndex s; croppingImage := croppingImage s;
         crop := v; completedCrop := completedCrop s;
         cropAspectRatio := cropAspectRatio s |}
  | SetCompletedCrop v =>
      {| images := images s; isLoading := isLoading s; error := error s;
         currentImageIndex := currentImageIndex s; croppingImage := croppingImage s;
         crop := crop s; completedCrop := v;
         cropAspectRatio := cropAspectRatio s |}
  | SetCropAspectRatio v =>
      {| images := images s; isLoading := isLoading s; error := error s;
         currentImageIndex := currentImageIndex s; croppingImage := croppingImage s;
         crop := crop s; completedCrop := completedCrop s;
         cropAspectRatio := v |}
  end.

Definition run (us : list Update) (s : AppState) : AppState :=
  fold_left (fun s u => apply u s) us s.

(** Every state a consumer can observe while the updates are applied. *)
Fixpoint states (us : list Update) (s : AppState) : list AppState :=
  match us with
  | [] => [s]
  | u :: rest => s :: states rest (apply u s)
  end.

(** The [useState] initial values. *)
Definition initialState : AppState :=
  {| images := []; isLoading := false; error := None; currentImageIndex := !0;
     croppingImage := None; crop := None; completedCrop := None;
     cropAspectRatio := None |}.

(** What the handlers reach outside React state: the two refs, whether a
    fresh canvas gets a 2d context, the source of [crypto.randomUUID()],
    the size the style sheet gives the image of the crop dialog, and the
    time the browser takes to load the image at each position of a batch. *)
Record Env : Type := {
  canvasRef : option (Canvas N);
  imgRef : option (HTMLImageElement N);
  has2d : bool;
  randomUUID : nat -> string;
  uuidsDrawn : nat;
  layout : DataUrl N -> N * N;
  loadTime : nat -> nat
}.

Definition with_canvasRef (env : Env) (c : option (Canvas N)) : Env :=
  {| canvasRef := c; imgRef := imgRef env; has2d := has2d env;
     randomUUID := randomUUID env; uuidsDrawn := uuidsDrawn env; layout := layout env;
     loadTime := loadTime env |}.

Definition with_imgRef (env : Env) (i : option (HTMLImageElement N)) : Env :=
  {| canvasRef := canvasRef env; imgRef := i; has2d := has2d env;
     randomUUID := randomUUID env; uuidsDrawn := uuidsDrawn env; layout := layout env;
     loadTime := loadTime env |}.

Definition nextUUID (env : Env) : string * Env :=
  (randomUUID env (uuidsDrawn env),
   {| canvasRef := canvasRef env; imgRef := imgRef env; has2d := has2d env;
      randomUUID := randomUUID env; uuidsDrawn := S (uuidsDrawn env);
      layout := layout env; loadTime := loadTime env |}).

(** [getCroppedImg]; [fresh2d] says whether the canvas it creates has a
    2d context. *)
Definition getCroppedImg (fresh2d : bool) (image : HTMLImageElement N) (crop : PixelCrop)
    : Result (DataUrl N) :=
  let canvas := createCanvas fresh2d in
  if negb (context2d canvas) then Err "Could not get canvas context for cropping."
  else
    let scaleX := naturalWidth image / width image in
    let scaleY := naturalHeight image / height image in
    let canvas := set_width canvas (Math_floor (crop_width crop * scaleX)) in
    let canvas := set_height canvas (Math_floor (crop_height crop * scaleY)) in
    let canvas :=
      drawImage9 canvas image
        (crop_x crop * scaleX)
        (crop_y crop * scaleY)
        (crop_width crop * scaleX)
        (crop_height crop * scaleY)
        !0
        !0
        (canvas_width canvas)
        (canvas_height canvas) in
    Ok (toDataURL canvas).

(** [addBorderToImage]: the promise's outcome and the shared canvas. *)
Definition addBorderToImage (canvasRef : option (Canvas N)) (imageDataUrl : DataUrl N)
    : Result (DataUrl N) * option (Canvas N) :=
  match loadImage imageDataUrl with
  | None => (Err "The image file could not be loaded.", canvasRef)
  | Some image =>
      match canvasRef with
      | None => (Err "Canvas element not found.", canvasRef)
      | Some canvas =>
          if negb (context2d canvas)
          then (Err "Could not get canvas context.", canvasRef)
          else
            let canvas := set_width canvas canvasSize in
            let canvas := set_height canvas canvasSize in
            let canvas := set_fillStyle canvas "white" in
            let canvas := fillRect canvas !0 !0 canvasSize canvasSize in
            let imageAspectRatio := width image / height image in
            let drawWidth :=
              if width image >? height image then canvasSize * padding
              else (canvasSize * padding) * imageAspectRatio in
            let drawHeight :=
              if width image >? height image then (canvasSize * padding) / imageAspectRatio
              else canvasSize * padding in
            let x := (canvasSize - drawWidth) / !2 in
            let y := (canvasSize - drawHeight) / !2 in
            let canvas := drawImage5 canvas image x y drawWidth drawHeight in
            (Ok (toDataURL canvas), Some canvas)
      end
  end.

(** [imageUrls.map(async (url) => ...)] starts every load at once; the
    images then finish loading in an order of the browser's choosing.
    [loadOrder] lists the positions of the batch, each with its URL, in
    the order in which they finish: by [loadTime], the earlier position
    first among equal times. *)
Fixpoint insertByTime (time : nat -> nat) (p : nat * DataUrl N)
    (later : list (nat * DataUrl N)) : list (nat * DataUrl N) :=
  match later with
  | [] => [p]
  | q :: rest =>
      if Nat.leb (time (fst p)) (time (fst q)) then p :: later
      else q :: insertByTime time p rest
  end.

Definition loadOrder (time : nat -> nat) (urls : list (DataUrl N))
    : list (nat * DataUrl N) :=
  fold_right (insertByTime time) [] (combine (seq 0 (List.length urls)) urls).

(** The callbacks of [processAndAddImages] as they run: when the image at
    a position has loaded (or failed to), [addBorderToImage] settles on the
    shared canvas, and a callback whose composition is fulfilled goes on to
    draw its id and is fulfilled with the entry.  Each outcome is listed
    with the position it belongs to, in the order of the events. *)
Fixpoint settleEach (env : Env) (events : list (nat * DataUrl N))
    : list (Result (nat * ImageState)) * Env :=
  match events with
  | [] => ([], env)
  | (position, url) :: rest =>
      let (r, canvasRef1) := addBorderToImage (canvasRef env) url in
      let env1 := with_canvasRef env canvasRef1 in
      let (entry, env2) :=
        match r with
        | Ok formattedSrc =>
            let (uuid, env2) := nextUUID env1 in
            (Ok (position,
                 {| id := uuid; originalSrc := url; formattedSrc := formattedSrc |}), env2)
        | Err m => (Err m, env1)
        end in
      let (entries, env3) := settleEach env2 rest in
      (entry :: entries, env3)
  end.

Definition formatEach (env : Env) (urls : list (DataUrl N))
    : list (Result (nat * ImageState)) * Env :=
  settleEach env (loadOrder (loadTime env) urls).

(** The array [Promise.all] is fulfilled with: for each position of the
    input, the value of the promise at that position. *)
Definition valuesInOrder (n : nat) (fulfilled : list (nat * ImageState)) : list ImageState :=
  flat_map
    (fun position =>
       match find (fun p => Nat.eqb (fst p) position) fulfilled with
       | Some p => [snd p]
       | None => []
       end)
    (seq 0 n).

Definition processAndAddImages (env : Env) (imageDataUrls : list (DataUrl N))
    : list Update * Env :=
  let (settled, env') := formatEach env imageDataUrls in
  match Promise_all settled with
  | Ok fulfilled =>
      let newImageStates := valuesInOrder (List.length imageDataUrls) fulfilled in
      ([UpdateImages (fun prev => prev ++ newImageStates)], env')
  | Err m => ([SetError (Some m)], env')
  end.

Definition readSingleFile (file : File N) : Result (DataUrl N) :=
  match file_data file with
  | Some result => Ok result
  | None => Err "Failed to read the selected file."
  end.

(** [handleFiles]; [None] is the [null] FileList. *)
Definition handleFiles (env : Env) (files : option (list (File N)))
    : list Update * Env :=
  match files with
  | None | Some [] => ([], env)
  | Some files =>
      let started :=
        [SetIsLoading true; SetError None; SetImages []; SetCurrentImageIndex !0] in
      let imageFiles := filter isImageFile files in
      match imageFiles with
      | [] =>
          (started ++ [SetError (Some "No valid image files selected."); SetIsLoading false],
           env)
      | _ =>
          match Promise_all (map readSingleFile imageFiles) with
          | Err m => (started ++ [SetError (Some m); SetIsLoading false], env)
          | Ok imageDataUrls =>
              let (us, env') := processAndAddImages env imageDataUrls in
              (started ++ us ++ [SetIsLoading false], env')
          end
      end
  end.

Definition handleCropClick (s : AppState) (entryId : string) : list Update :=
  match find (fun img => String.eqb (id img) entryId) (images s) with
  | Some imageToCrop =>
      [SetCroppingImage (Some imageToCrop); SetCropAspectRatio None; SetCrop None]
  | None => []
  end.

(** The updater handed to [setImages] by [handleApplyCrop]. *)
Definition replaceCropped (target : ImageState) (newlyFormattedUrl croppedImageUrl : DataUrl N)
    (prevImages : list ImageState) : list ImageState :=
  map (fun img =>
         if String.eqb (id img) (id target)
         then {| id := id img; originalSrc := croppedImageUrl;
                 formattedSrc := newlyFormattedUrl |}
         else img)
      prevImages.

Definition handleApplyCrop (s : AppState) (env : Env) : list Update * Env :=
  match croppingImage s, completedCrop s, imgRef env with
  | Some croppingImage, Some completedCrop, Some img =>
      if (crop_width completedCrop === !0) || (crop_height completedCrop === !0)
      then ([SetCroppingImage None], env)
      else
        match getCroppedImg (has2d env) img completedCrop with
        | Err m => ([SetIsLoading true; SetError (Some m); SetIsLoading false], env)
        | Ok croppedImageUrl =>
            let (r, canvasRef') := addBorderToImage (canvasRef env) croppedImageUrl in
            let env' := with_canvasRef env canvasRef' in
            match r with
            | Err m => ([SetIsLoading true; SetError (Some m); SetIsLoading false], env')
            | Ok newlyFormattedUrl =>
                ([SetIsLoading true;
                  UpdateImages (replaceCropped croppingImage newlyFormattedUrl croppedImageUrl);
                  SetCroppingImage None;
                  SetIsLoading false], env')
            end
        end
  | _, _, _ => ([], env)
  end.

(** The crop dialog of the JSX: its [img], whose ref is [imgRef], is mounted
    exactly while [croppingImage] is set and shows [croppingImage.originalSrc]
    at the size the layout gives it. *)
Definition render (s : AppState) (env : Env) : Env :=
  with_imgRef env
    match croppingImage s with
    | None => None
    | Some c =>
        let (w, h) := layout env (originalSrc c) in
        Some match loadImage (originalSrc c) with
             | Some i =>
                 {| src := originalSrc c; naturalWidth := naturalWidth i;
                    naturalHeight := naturalHeight i; width := w; height := h |}
             | None =>
                 {| src := originalSrc c; naturalWidth := !0; naturalHeight := !0;
                    width := w; height := h |}
             end
    end.

(** The user's path through the dialog for one crop: press Crop on the
    entry, the dialog renders, ReactCrop (mounted only while the dialog is
    open) reports the completed selection through [onComplete], press
    Apply. *)
Definition applyCrop (s : AppState) (env : Env) (entryId : string) (region : PixelCrop)
    : AppState * Env :=
  let s1 := run (handleCropClick s entryId) s in
  let env1 := render s1 env in
  let s2 :=
    match croppingImage s1 with
    | Some _ => run [SetCompletedCrop (Some region)] s1
    | None => s1
    end in
  let (us, env2) := handleApplyCrop s2 env1 in
  let s3 := run us s2 in
  (s3, render s3 env2).

(** [images.length], as a number. *)
Definition lengthOf (l : list ImageState) : N :=
  js_lit (inject_Z (Z.of_nat (List.length l))).

(** [handleGenerate]; [prompt] and [aspectRatio] are the state its closure
    holds, [generateImage] is the remote service. *)
Definition handleGenerate (s : AppState) (env : Env) (prompt : string)
    (aspectRatio : AspectRatio)
    (generateImage : string -> AspectRatio -> Result (DataUrl N))
    : list Update * Env :=
  if String.eqb prompt "" then ([], env)
  else
    match generateImage prompt aspectRatio with
    | Ok generatedDataUrl =>
        let (us, env') := processAndAddImages env [generatedDataUrl] in
        ([SetIsLoading true; SetError None] ++ us
         ++ [SetCurrentImageIndex (lengthOf (images s)); SetIsLoading false], env')
    | Err m =>
        ([SetIsLoading true; SetError None; SetError (Some m); SetIsLoading false], env)
    end.

(** The state [handleClear] and [handleModeChange] reach besides [AppState]. *)
Inductive Mode : Type := upload | generate.

Definition Mode_eqb (a b : Mode) : bool :=
  match a, b with
  | upload, upload | generate, generate => true
  | _, _ => false
  end.

Record Ui : Type := {
  ui_state : AppState;
  ui_mode : Mode;
  ui_prompt : string
}.

Inductive UiUpdate : Type :=
| OnState (u : Update)
| SetMode (v : Mode)
| SetPrompt (v : string).

Definition applyUi (u : UiUpdate) (ui : Ui) : Ui :=
  match u with
  | OnState u =>
      {| ui_state := apply u (ui_state ui); ui_mode := ui_mode ui; ui_prompt := ui_prompt ui |}
  | SetMode v => {| ui_state := ui_state ui; ui_mode := v; ui_prompt := ui_prompt ui |}
  | SetPrompt v => {| ui_state := ui_state ui; ui_mode := ui_mode ui; ui_prompt := v |}
  end.

Definition runUi (us : list UiUpdate) (ui : Ui) : Ui :=
  fold_left (fun ui u => applyUi u ui) us ui.

Definition handleClear : list UiUpdate :=
  [OnState (SetImages []); OnState (SetError None); OnState (SetIsLoading false);
   OnState (SetCurrentImageIndex !0);
   SetPrompt "A cute baby sea otter floating on its back"].

Definition handleModeChange (ui : Ui) (newMode : Mode) : list UiUpdate :=
  (if negb (Mode_eqb (ui_mode ui) newMode) then handleClear else []) ++ [SetMode newMode].

(** What [ImagePreview] renders. *)
Inductive Preview : Type :=
| Spinner
| ErrorBox (message : string)
| Carousel (images : list ImageState)
| Placeholder.

Definition truthy (error : option string) : option string :=
  match error with
  | Some m => if String.eqb m "" then None else Some m
  | None => None
  end.

Definition ImagePreview (images : list ImageState) (isLoading : bool)
    (error : option string) : Preview :=
  if isLoading && Nat.eqb (List.length images) 0 then Spinner
  else
    match truthy error with
    | Some m => ErrorBox m
    | None => if Nat.ltb 0 (List.length images) then Carousel images else Placeholder
    end.

(** The preview of [App]: with an empty gallery it is handed the empty list. *)
Definition preview (s : AppState) : Preview :=
  if Nat.ltb 0 (List.length (images s))
  then ImagePreview (images s) (isLoading s) (error s)
  else ImagePreview [] (isLoading s) (error s).

End WithNumbers.
Arguments ImageState N : clear implicits.
Arguments Crop N : clear implicits.
Arguments PixelCrop N : clear implicits.
Arguments AppState N : clear implicits.
Arguments Update N : clear implicits.
Arguments Env N : clear implicits.
Arguments Ui N : clear implicits.
Arguments UiUpdate N : clear implicits.
Arguments Preview N : clear implicits.
End Gallery.

(** ** What the statements below talk about *)

(** The picture every compositor produces: a white square of side
    [canvasSize] with [source] drawn into the rectangle of origin [(x, y)]
    and size [drawWidth] x [drawHeight]. *)
Definition framed {N : Type} `{JSNumber N} (source : DataUrl N) (x y drawWidth drawHeight : N)
    : DataUrl N :=
  CanvasPng canvasSize canvasSize
    [FillRect "white" (js_lit 0) (js_lit 0) canvasSize canvasSize;
     DrawImage5 source x y drawWidth drawHeight].

(** The formatted URL that [Single.processAndSetImage] stores, if it stores one. *)
Definition Single_output {N : Type} (us : list (Single.Update N)) : Result (DataUrl N) :=
  match us with
  | Single.SetFormattedImageUrl (Some out) :: _ => Ok out
  | Single.SetError (Some m) :: _ => Err m
  | _ => Err ""
  end.

(** Concrete data for the scenarios: a page whose hidden canvas is mounted,
    ids a, b, c, ... in the order they are drawn, a crop dialog that shows
    its image 200 x 200, images that load in the order of the batch; an
    image file, a text file, and an image file whose bytes do not decode. *)
Definition uuidOf (n : nat) : string :=
  String (Ascii.ascii_of_nat (97 + n)) EmptyString.

Definition page : Gallery.Env Q :=
  {| Gallery.canvasRef := Some (createCanvas true);
     Gallery.imgRef := None;
     Gallery.has2d := true;
     Gallery.randomUUID := uuidOf;
     Gallery.uuidsDrawn := 0;
     Gallery.layout := fun _ => (200, 200);
     Gallery.loadTime := fun _ => 0%nat |}.

Definition pngFile (w h : Q) (serial : nat) : File Q :=
  {| file_name := "photo.png"; file_type := "image/png";
     file_data := Some (Photo w h serial) |}.

Definition textFile : File Q :=
  {| file_name := "notes.txt"; file_type := "text/plain"; file_data := Some (Corrupt 0) |}.

Definition brokenPngFile : File Q :=
  {| file_name := "broken.png"; file_type := "image/png"; file_data := Some (Corrupt 1) |}.

(** A gallery holding two uploaded 400 x 400 pictures, ids a and b. *)
Definition twoPictures : Gallery.AppState Q :=
  Gallery.run
    (fst (Gallery.handleFiles page (Some [pngFile 400 400 1; pngFile 400 400 2])))
    Gallery.initialState.

Definition pageAfterUpload : Gallery.Env Q :=
  snd (Gallery.handleFiles page (Some [pngFile 400 400 1; pngFile 400 400 2])).

Definition region (x y w h : Q) : Gallery.PixelCrop Q :=
  {| Gallery.crop_unit := "px"; Gallery.crop_x := x; Gallery.crop_y := y;
     Gallery.crop_width := w; Gallery.crop_height := h |}.

(** The 400 x 400 picture as the crop dialog shows it, 200 x 200. *)
Definition displayed200 : HTMLImageElement Q :=
  {| src := Photo 400 400 1; naturalWidth := 400; naturalHeight := 400;
     width := 200; height := 200 |}.

(** The same picture and regions in binary64; [shownAt w h] is the picture
    as an image element laid out [w] x [h]. *)
Definition shownAt (w h : float) : HTMLImageElement float :=
  {| src := Photo 400%float 400%float 1; naturalWidth := 400%float;
     naturalHeight := 400%float; width := w; height := h |}.

Definition regionF (x y w h : float) : Gallery.PixelCrop float :=
  {| Gallery.crop_unit := "px"; Gallery.crop_x := x; Gallery.crop_y := y;
     Gallery.crop_width := w; Gallery.crop_height := h |}.

(** A number a canvas dimension keeps as it is: a whole number from 0 to
    2147483647, which is the number of the unsigned long it converts to. *)
Definition keptDimension {N : Type} `{JSNumber N} (v : N) : Prop :=
  (0 <= ToUint32 v <= 2147483647)%Z /\ js_lit (inject_Z (ToUint32 v)) = v.

(** The same page with a browser that finishes the images of a batch in
    the reverse of their order. *)
Definition lastFirstPage : Gallery.Env Q :=
  {| Gallery.canvasRef := Some (createCanvas true);
     Gallery.imgRef := None;
     Gallery.has2d := true;
     Gallery.randomUUID := uuidOf;
     Gallery.uuidsDrawn := 0;
     Gallery.layout := fun _ => (200, 200);
     Gallery.loadTime := fun position => (9 - position)%nat |}.

(** A region reaches outside the displayed image (exact arithmetic). *)
Definition exceedsBounds (displayed : HTMLImageElement Q) (region : Gallery.PixelCrop Q) : Prop :=
  Gallery.crop_x region < 0
  \/ Gallery.crop_y region < 0
  \/ width displayed < Gallery.crop_x region + Gallery.crop_width region
  \/ height displayed < Gallery.crop_y region + Gallery.crop_height region.

(** The region has no area, by the test of [handleApplyCrop]. *)
Definition zeroArea {N : Type} `{JSNumber N} (region : Gallery.PixelCrop N) : bool :=
  js_eqb (Gallery.crop_width region) (js_lit 0)
  || js_eqb (Gallery.crop_height region) (js_lit 0).

(** An image-typed file that cannot be read, or whose bytes do not decode. *)
Definition unusable {N : Type} (file : File N) : Prop :=
  file_data file = None
  \/ exists url, file_data file = Some url /\ loadImage url = None.

(** Three files selected together, the second one a text file; and the
    same with a second file that claims to be an image and does not decode. *)
Definition mixedBatch : list (File Q) :=
  [pngFile 400 400 1; textFile; pngFile 300 500 3].

Definition brokenBatch : list (File Q) :=
  [pngFile 400 400 1; brokenPngFile; pngFile 300 500 3].

(** The crop dialog opened on entry b of [twoPictures] with the selection
    (10, 10, 50, 50) completed. *)
Definition dialogOnB : Gallery.AppState Q :=
  Gallery.apply (Gallery.SetCompletedCrop (Some (region 10 10 50 50)))
    (Gallery.run (Gallery.handleCropClick twoPictures "b") twoPictures).

Definition pageWithDialog : Gallery.Env Q :=
  Gallery.render dialogOnB pageAfterUpload.

(** The ids of the gallery are distinct and were all drawn from
    [crypto.randomUUID()] before. *)
Definition knownIds {N : Type} (s : Gallery.AppState N) (env : Gallery.Env N) : Prop :=
  NoDup (map (@Gallery.id N) (Gallery.images s))
  /\ forall e, In e (Gallery.images s) ->
       exists i, (i < Gallery.uuidsDrawn env)%nat /\ Gallery.id e = Gallery.randomUUID env i.

(** No two draws of [crypto.randomUUID()] give the same id. *)
Definition neverRepeats (randomUUID : nat -> string) : Prop :=
  forall i j, randomUUID i = randomUUID j -> i = j.

(** A source of ids that never repeats itself: the n-th draw is n letters
    long.  A page that draws from it, and a gallery of two pictures
    uploaded on that page. *)
Fixpoint tally (n : nat) : string :=
  match n with
  | O => EmptyString
  | S k => String (Ascii.ascii_of_nat 120) (tally k)
  end.

Definition tallyPage : Gallery.Env Q :=
  {| Gallery.canvasRef := Some (createCanvas true);
     Gallery.imgRef := None;
     Gallery.has2d := true;
     Gallery.randomUUID := tally;
     Gallery.uuidsDrawn := 0;
     Gallery.layout := fun _ => (200, 200);
     Gallery.loadTime := fun _ => 0%nat |}.


(** A remote service that always answers with the same 1024 x 1024 image. *)
Definition cannedService (prompt : string) (aspectRatio : AspectRatio) : Result (DataUrl Q) :=
  Ok (Photo 1024 1024 9).

(** Two pictures uploaded on [tallyPage], and the crop dialog opened on the
    second of them (its id is one letter long) with the selection
    (10, 10, 50, 50) completed. *)
Definition tallyDialog : Gallery.AppState Q :=
  let uploaded :=
    Gallery.run
      (fst (Gallery.handleFiles tallyPage (Some [pngFile 400 400 1; pngFile 400 400 2])))
      Gallery.initialState in
  Gallery.apply (Gallery.SetCompletedCrop (Some (region 10 10 50 50)))
    (Gallery.run (Gallery.handleCropClick uploaded (tally 1)) uploaded).

Definition tallyDialogPage : Gallery.Env Q :=
  Gallery.render tallyDialog
    (snd (Gallery.handleFiles tallyPage (Some [pngFile 400 400 1; pngFile 400 400 2]))).

(** A remote service that is down. *)
Definition failingService (prompt : string) (aspectRatio : AspectRatio) : Result (DataUrl Q) :=
  Err "The service is unavailable.".

(** A remote service whose answer does not decode. *)
Definition garbledService (prompt : string) (aspectRatio : AspectRatio) : Result (DataUrl Q) :=
  Ok (Corrupt 9).

(** * Theorems *)

(** ** The compositor *)

(** In a number system where [1080 === 0] is false the canvas has pixels. *)
Lemma toDataURL_canvasSize {N : Type} `{JSNumber N} (c : Canvas N) :
  js_eqb (canvasSize (N:=N)) (js_lit 0) = false ->
  canvas_width c = canvasSize -> canvas_height c = canvasSize ->
  toDataURL c = CanvasPng canvasSize canvasSize (drawn c).
Proof.
  intros Hnz Hw Hh. unfold toDataURL. rewrite Hw, Hh, Hnz. reflexivity.
Qed.

(** A dimension that is assigned [canvasSize] holds [canvasSize], in a
    number system that converts 1080 to the unsigned long 1080. *)
Lemma reflectedDimension_canvasSize {N : Type} `{JSNumber N} (fallback : Z) :
  ToUint32 (canvasSize (N:=N)) = 1080%Z ->
  reflectedDimension fallback (canvasSize (N:=N)) = canvasSize.
Proof.
  intros Hdim. unfold reflectedDimension. rewrite Hdim. reflexivity.
Qed.

(** Both arithmetics read 1080 as the unsigned long 1080, and as a number
    other than 0. *)
Lemma canvasSize_is_a_dimension :
  (ToUint32 (canvasSize (N:=float)) = 1080%Z
   /\ js_eqb (canvasSize (N:=float)) (js_lit 0) = false)
  /\ (ToUint32 (canvasSize (N:=Q)) = 1080%Z
      /\ js_eqb (canvasSize (N:=Q)) (js_lit 0) = false).
Proof.
  repeat split; vm_compute; reflexivity.
Qed.

Ltac canvas_is_square Hdim :=
  cbn [canvas_width canvas_height drawImage5 paint fillRect set_fillStyle set_height
       set_width];
  apply reflectedDimension_canvasSize; exact Hdim.

(** C2.  Whatever the size of the source, once it decodes and the shared
    canvas offers a 2d context, each of the three compositors resolves with
    the PNG of a canvas that is exactly [canvasSize] x [canvasSize]
    (1080 x 1080), and the shared canvas is left with that size.  Stated for
    every number system in which 1080 is the unsigned long 1080 and
    [1080 === 0] is false, which covers both the exact and the binary64
    arithmetic. *)
Theorem compositor_output_is_canvasSize_square
    {N : Type} `{JSNumber N} (canvas : Canvas N) (url : DataUrl N) (image : HTMLImageElement N) :
  ToUint32 (canvasSize (N:=N)) = 1080%Z ->
  js_eqb (canvasSize (N:=N)) (js_lit 0) = false ->
  loadImage url = Some image ->
  context2d canvas = true ->
  (exists ops canvas',
     Gallery.addBorderToImage (Some canvas) url
     = (Ok (CanvasPng canvasSize canvasSize ops), Some canvas')
     /\ canvas_width canvas' = canvasSize /\ canvas_height canvas' = canvasSize)
  /\ (exists ops canvas',
     Batch.processImageDataUrl (Some canvas) url
     = (Ok (CanvasPng canvasSize canvasSize ops), Some canvas')
     /\ canvas_width canvas' = canvasSize /\ canvas_height canvas' = canvasSize)
  /\ (exists ops canvas',
     Single.processAndSetImage (Some canvas) url
     = ([Single.SetFormattedImageUrl (Some (CanvasPng canvasSize canvasSize ops));
         Single.SetOriginalImage (Some url);
         Single.SetError None;
         Single.SetIsLoading false], Some canvas')
     /\ canvas_width canvas' = canvasSize /\ canvas_height canvas' = canvasSize).
Proof.
  intros Hdim Hnz Hload Hctx. repeat split.
  - unfold Gallery.addBorderToImage. rewrite Hload, Hctx. cbn [negb].
    do 2 eexists. rewrite (toDataURL_canvasSize _ Hnz) by canvas_is_square Hdim.
    split; [reflexivity | split; canvas_is_square Hdim].
  - unfold Batch.processImageDataUrl. rewrite Hload, Hctx. cbn [negb].
    destruct (js_gtb _ _); do 2 eexists;
      rewrite (toDataURL_canvasSize _ Hnz) by canvas_is_square Hdim;
      (split; [reflexivity | split; canvas_is_square Hdim]).
  - unfold Single.processAndSetImage. rewrite Hload, Hctx. cbn [negb].
    destruct (js_gtb _ _); do 2 eexists;
      rewrite (toDataURL_canvasSize _ Hnz) by canvas_is_square Hdim;
      (split; [reflexivity | split; canvas_is_square Hdim]).
Qed.

(** The statement of C2 at a 4032 x 3024 photograph, in binary64. *)
Lemma compositor_output_is_canvasSize_square_witness :
  exists ops canvas',
    Gallery.addBorderToImage (Some (createCanvas true)) (Photo 4032%float 3024%float 7)
    = (Ok (CanvasPng canvasSize canvasSize ops), Some canvas')
    /\ canvas_width canvas' = canvasSize /\ canvas_height canvas' = canvasSize.
Proof.
  refine (proj1 (compositor_output_is_canvasSize_square
                   (createCanvas true) (Photo 4032%float 3024%float 7) _ _ _ _)).
  - vm_compute. reflexivity.
  - vm_compute. reflexivity.
  - vm_compute. reflexivity.
  - vm_compute. reflexivity.
Defined.

(** C1.  A 1600 x 900 source on the 1080 canvas with padding 0.9 is drawn
    972 wide and 546.75 high at x = 54, y = 266.625, by each of the three
    compositors: in binary64 arithmetic these are the very numbers handed
    to [drawImage], in exact arithmetic the numbers handed over are equal
    to them as rationals. *)
Theorem compositor_1600x900
    (cf : Canvas float) (cq : Canvas Q) (serial : nat) :
  context2d cf = true ->
  context2d cq = true ->
  let photo := Photo 1600%float 900%float serial in
  let photoQ := Photo 1600%Q 900%Q serial in
  (fst (Gallery.addBorderToImage (Some cf) photo)
   = Ok (framed photo 54%float 266.625%float 972%float 546.75%float)
   /\ fst (Batch.processImageDataUrl (Some cf) photo)
      = Ok (framed photo 54%float 266.625%float 972%float 546.75%float)
   /\ Single_output (fst (Single.processAndSetImage (Some cf) photo))
      = Ok (framed photo 54%float 266.625%float 972%float 546.75%float))
  /\ exists x y drawWidth drawHeight : Q,
       (fst (Gallery.addBorderToImage (Some cq) photoQ)
        = Ok (framed photoQ x y drawWidth drawHeight)
        /\ fst (Batch.processImageDataUrl (Some cq) photoQ)
           = Ok (framed photoQ x y drawWidth drawHeight)
        /\ Single_output (fst (Single.processAndSetImage (Some cq) photoQ))
           = Ok (framed photoQ x y drawWidth drawHeight))
       /\ drawWidth == 972 /\ drawHeight == 546.75 /\ x == 54 /\ y == 266.625.
Proof.
  intros Hcf Hcq photo photoQ. split.
  - unfold Gallery.addBorderToImage, Batch.processImageDataUrl, Single.processAndSetImage.
    subst photo. cbn [loadImage]. rewrite Hcf. cbn [negb].
    repeat split; vm_compute; reflexivity.
  - unfold Gallery.addBorderToImage, Batch.processImageDataUrl, Single.processAndSetImage.
    subst photoQ. cbn [loadImage]. rewrite Hcq. cbn [negb].
    do 4 eexists. split; [repeat split; reflexivity | ].
    repeat split; vm_compute; reflexivity.
Qed.

(** The statement of C1 on a freshly created canvas. *)
Lemma compositor_1600x900_witness :
  fst (Gallery.addBorderToImage (Some (createCanvas true)) (Photo 1600%float 900%float 0))
  = Ok (framed (Photo 1600%float 900%float 0) 54%float 266.625%float 972%float 546.75%float).
Proof.
  exact (proj1 (proj1 (compositor_1600x900 (createCanvas true) (createCanvas true) 0
                         eq_refl eq_refl))).
Defined.

(** Exact arithmetic: the two forms of the landscape test agree with the
    order of the rationals. *)
Lemma Q_gtb_false (a b : Q) : a <= b -> js_gtb a b = false.
Proof.
  intros Hle. cbn [js_gtb Q_number]. apply negb_false_iff, Qle_bool_iff, Hle.
Qed.

Lemma Q_aspect_le_1 (w h : Q) : 0 < w -> w <= h -> w / h <= 1.
Proof.
  intros Hw Hle. apply Qle_shift_div_r.
  - eapply Qlt_le_trans; eassumption.
  - rewrite Qmult_1_l. exact Hle.
Qed.

(** C3, as it is stated, fails on a landscape source: for 1600 x 900
    (width >= height) the height drawn is 546.75, not canvasSize * padding,
    in exact arithmetic and in binary64 alike. *)
Lemma landscape_height_is_not_padded_side :
  900 <= 1600
  /\ (exists x y drawWidth drawHeight : Q,
        fst (Gallery.addBorderToImage (Some (createCanvas true)) (Photo 1600 900 0))
        = Ok (framed (Photo 1600 900 0) x y drawWidth drawHeight)
        /\ fst (Batch.processImageDataUrl (Some (createCanvas true)) (Photo 1600 900 0))
           = Ok (framed (Photo 1600 900 0) x y drawWidth drawHeight)
        /\ ~ drawHeight == canvasSize * padding)
  /\ (exists x y drawWidth drawHeight : float,
        fst (Gallery.addBorderToImage (Some (createCanvas true))
               (Photo 1600%float 900%float 0))
        = Ok (framed (Photo 1600%float 900%float 0) x y drawWidth drawHeight)
        /\ js_eqb drawHeight (js_mul canvasSize padding) = false).
Proof.
  split; [discriminate | split].
  - do 4 eexists. split; [reflexivity | split; [reflexivity | ]].
    vm_compute. discriminate.
  - do 4 eexists. split; [vm_compute; reflexivity | ].
    vm_compute. reflexivity.
Qed.

(** C3, amended.  For every source with width <= height (portrait or
    square) the three compositors draw it with
    drawHeight = canvasSize * padding and drawWidth = drawHeight * aspect,
    and drawWidth <= canvasSize.  Exact arithmetic. *)
Theorem portrait_or_square_fills_padded_height
    (canvas : Canvas Q) (w h : Q) (serial : nat) :
  context2d canvas = true ->
  0 < w ->
  w <= h ->
  exists x y drawWidth drawHeight : Q,
    (fst (Gallery.addBorderToImage (Some canvas) (Photo w h serial))
     = Ok (framed (Photo w h serial) x y drawWidth drawHeight)
     /\ fst (Batch.processImageDataUrl (Some canvas) (Photo w h serial))
        = Ok (framed (Photo w h serial) x y drawWidth drawHeight)
     /\ Single_output (fst (Single.processAndSetImage (Some canvas) (Photo w h serial)))
        = Ok (framed (Photo w h serial) x y drawWidth drawHeight))
    /\ drawHeight == canvasSize * padding
    /\ drawWidth == drawHeight * (w / h)
    /\ drawWidth <= canvasSize.
Proof.
  intros Hctx Hw Hle.
  pose proof (Q_aspect_le_1 Hw Hle) as Hr.
  unfold Gallery.addBorderToImage, Batch.processImageDataUrl, Single.processAndSetImage.
  cbn [loadImage width height]. rewrite Hctx. cbn [negb].
  rewrite (Q_gtb_false Hle).
  replace (js_gtb (js_div w h) (js_lit 1)) with false
    by (symmetry; apply Q_gtb_false; exact Hr).
  do 4 eexists. split; [repeat split; reflexivity | ].
  split; [reflexivity | split; [reflexivity | ]].
  cbn [js_mul js_div js_lit Q_number canvasSize padding].
  set (r := w / h) in *. lra.
Qed.

(** The amended C3 at a 900 x 1600 portrait. *)
Lemma portrait_or_square_fills_padded_height_witness :
  exists x y drawWidth drawHeight : Q,
    (fst (Gallery.addBorderToImage (Some (createCanvas true)) (Photo 900 1600 0))
     = Ok (framed (Photo 900 1600 0) x y drawWidth drawHeight)
     /\ fst (Batch.processImageDataUrl (Some (createCanvas true)) (Photo 900 1600 0))
        = Ok (framed (Photo 900 1600 0) x y drawWidth drawHeight)
     /\ Single_output (fst (Single.processAndSetImage (Some (createCanvas true)) (Photo 900 1600 0)))
        = Ok (framed (Photo 900 1600 0) x y drawWidth drawHeight))
    /\ drawHeight == canvasSize * padding
    /\ drawWidth == drawHeight * (900 / 1600)
    /\ drawWidth <= canvasSize.
Proof.
  apply (@portrait_or_square_fills_padded_height (createCanvas true) 900 1600 0).
  - reflexivity.
  - reflexivity.
  - discriminate.
Defined.

(** ** The crop transform *)


(** In exact arithmetic the whole numbers from 0 to 2147483647 are kept. *)
Lemma Q_keptDimension (z : Z) :
  (0 <= z <= 2147483647)%Z -> keptDimension (inject_Z z).
Proof.
  intros Hz. unfold keptDimension. cbn [ToUint32 js_lit Q_number inject_Z Qnum Qden].
  rewrite Z.quot_1_r, Z.mod_small by lia. split; [exact Hz | reflexivity].
Qed.

(** C4, as it is stated, fails where the floor is not a size a canvas can
    have (binary64).  For an image the dialog has not laid out yet
    (rendered 0 x 0) the scale is infinite, floor(50 * scaleX) is Infinity,
    the canvas gets the width 0 and [getCroppedImg] returns the empty data
    URL instead of a bitmap.  For a region 1500000000 wide on the 200 x 200
    rendering floor(width * scaleX) is 3000000000, more than a canvas
    dimension holds, and the bitmap is 300 x 100. *)
Lemma crop_size_that_no_canvas_holds :
  (Math_floor (js_mul 50%float (js_div 400%float 0%float)) = infinity
   /\ Gallery.getCroppedImg true (shownAt 0 0) (regionF 10 10 50 50) = Ok EmptyData)
  /\ (Math_floor (js_mul 1500000000%float (js_div 400%float 200%float)) = 3000000000%float
      /\ Gallery.getCroppedImg true (shownAt 200 200) (regionF 0 0 1500000000 50)
         = Ok (CanvasPng 300%float 100%float
                 [DrawImage9 (Photo 400%float 400%float 1)
                    0%float 0%float 3000000000%float 100%float
                    0%float 0%float 300%float 100%float])).
Proof.
  repeat split; vm_compute; reflexivity.
Qed.



(** Pressing Crop never touches the gallery. *)
Lemma Gallery_handleCropClick_images {N : Type} (s : Gallery.AppState N) (entryId : string) :
  Gallery.images (Gallery.run (Gallery.handleCropClick s entryId) s) = Gallery.images s.
Proof.
  unfold Gallery.handleCropClick. destruct (find _ _); reflexivity.
Qed.

(** C5.  Applying a crop whose completed region has zero width or zero
    height changes neither the gallery (every entry keeps its formatted
    output and its original, in every intermediate state too) nor the
    shared canvas, so nothing is composited again: [handleApplyCrop] issues
    at most [setCroppingImage(null)].  The same holds for the whole path
    through the dialog, [Gallery.applyCrop], on any entry. *)
Theorem zero_area_crop_is_noop
    {N : Type} `{JSNumber N} (s : Gallery.AppState N) (env : Gallery.Env N)
    (region : Gallery.PixelCrop N) (entryId : string) :
  zeroArea region = true ->
  Gallery.completedCrop s = Some region ->
  (Gallery.handleApplyCrop s env = ([], env)
   \/ Gallery.handleApplyCrop s env = ([Gallery.SetCroppingImage None], env))
  /\ (forall st, In st (Gallery.states (fst (Gallery.handleApplyCrop s env)) s) ->
      Gallery.images st = Gallery.images s)
  /\ Gallery.images (Gallery.run (fst (Gallery.handleApplyCrop s env)) s) = Gallery.images s
  /\ Gallery.images (fst (Gallery.applyCrop s env entryId region)) = Gallery.images s
  /\ Gallery.canvasRef (snd (Gallery.applyCrop s env entryId region)) = Gallery.canvasRef env.
Proof.
  intros Hzero Hcompleted.
  assert (Hcases : Gallery.handleApplyCrop s env = ([], env)
                   \/ Gallery.handleApplyCrop s env = ([Gallery.SetCroppingImage None], env)).
  { unfold Gallery.handleApplyCrop. rewrite Hcompleted.
    destruct (Gallery.croppingImage s); [ | left; reflexivity].
    destruct (Gallery.imgRef env); [ | left; reflexivity].
    unfold zeroArea in Hzero. rewrite Hzero. right; reflexivity. }
  split; [exact Hcases | ].
  split; [ | split; [ | split]].
  - intros st Hin. destruct Hcases as [Hc | Hc]; rewrite Hc in Hin; cbn in Hin.
    + destruct Hin as [<- | []]. reflexivity.
    + destruct Hin as [<- | [<- | []]]; reflexivity.
  - destruct Hcases as [-> | ->]; reflexivity.
  - unfold Gallery.applyCrop.
    pose proof (Gallery_handleCropClick_images s entryId) as Himg.
    set (s1 := Gallery.run (Gallery.handleCropClick s entryId) s) in *.
    unfold Gallery.handleApplyCrop, Gallery.render.
    destruct (Gallery.croppingImage s1) as [c | ] eqn:Hc.
    + cbn. rewrite Hc. cbn.
      destruct (Gallery.layout env (Gallery.originalSrc c)) as [w h]. cbn.
      unfold zeroArea in Hzero. rewrite Hzero. cbn. exact Himg.
    + rewrite Hc. cbn. exact Himg.
  - unfold Gallery.applyCrop.
    set (s1 := Gallery.run (Gallery.handleCropClick s entryId) s) in *.
    unfold Gallery.handleApplyCrop, Gallery.render.
    destruct (Gallery.croppingImage s1) as [c | ] eqn:Hc.
    + cbn. rewrite Hc. cbn.
      destruct (Gallery.layout env (Gallery.originalSrc c)) as [w h]. cbn.
      unfold zeroArea in Hzero. rewrite Hzero. cbn. reflexivity.
    + rewrite Hc. cbn. reflexivity.
Qed.

(** C5 at the two-picture gallery: a 0 x 50 selection on entry a. *)
Lemma zero_area_crop_is_noop_witness :
  Gallery.images (fst (Gallery.applyCrop
                         (Gallery.apply (Gallery.SetCompletedCrop (Some (region 10 10 0 50)))
                            twoPictures)
                         pageAfterUpload "a" (region 10 10 0 50)))
  = Gallery.images twoPictures.
Proof.
  exact (proj1 (proj2 (proj2 (proj2
           (@zero_area_crop_is_noop Q _
              (Gallery.apply (Gallery.SetCompletedCrop (Some (region 10 10 0 50))) twoPictures)
              pageAfterUpload (region 10 10 0 50) "a" eq_refl eq_refl))))).
Defined.

(** C6, as it is stated, fails: on the 200 x 200 rendering of a 400 x 400
    image the region (150, 150, 100, 100) reaches 50 beyond the right and
    bottom edges, and [getCroppedImg] returns a 200 x 200 bitmap copied from
    the unclamped native rectangle (300, 300, 200, 200). *)
Lemma out_of_bounds_region_is_still_cropped :
  exceedsBounds displayed200 (region 150 150 100 100)
  /\ exists sx sy sw sh outWidth outHeight : Q,
       Gallery.getCroppedImg true displayed200 (region 150 150 100 100)
       = Ok (CanvasPng outWidth outHeight
               [DrawImage9 (Photo 400 400 1) sx sy sw sh 0 0 outWidth outHeight])
       /\ sx == 300 /\ sy == 300 /\ sw == 200 /\ sh == 200
       /\ outWidth == 200 /\ outHeight == 200.
Proof.
  split.
  - right; right; left. reflexivity.
  - do 6 eexists. split; [reflexivity | ].
    repeat split; vm_compute; reflexivity.
Qed.

(** C6, amended.  [getCroppedImg] neither checks the region against the
    displayed bounds nor clamps it: for every image and every region it
    returns the encoding of its canvas, and its only failure is a canvas
    without a 2d context.  In every number system. *)
Theorem getCroppedImg_has_no_bounds_check
    {N : Type} `{JSNumber N} (image : HTMLImageElement N) (crop : Gallery.PixelCrop N) :
  (exists canvas : Canvas N,
     Gallery.getCroppedImg true image crop = Ok (toDataURL canvas)
     /\ drawn canvas
        = [DrawImage9 (src image)
             (js_mul (Gallery.crop_x crop) (js_div (naturalWidth image) (width image)))
             (js_mul (Gallery.crop_y crop) (js_div (naturalHeight image) (height image)))
             (js_mul (Gallery.crop_width crop) (js_div (naturalWidth image) (width image)))
             (js_mul (Gallery.crop_height crop) (js_div (naturalHeight image) (height image)))
             (js_lit 0) (js_lit 0) (canvas_width canvas) (canvas_height canvas)])
  /\ Gallery.getCroppedImg false image crop
     = Err "Could not get canvas context for cropping.".
Proof.
  split; [ | reflexivity].
  eexists. split; reflexivity.
Qed.

(** ** Batch ingestion *)

Lemma Promise_all_rejects {A : Type} (rs : list (Result A)) (m : string) :
  In (Err m) rs -> exists m', Promise_all rs = Err m'.
Proof.
  induction rs as [ | r rest IH]; intros Hin; [destruct Hin | ].
  cbn [Promise_all]. destruct r as [a | m0]; [ | eexists; reflexivity].
  destruct Hin as [Heq | Hin]; [discriminate | ].
  destruct (IH Hin) as [m' ->]. eexists; reflexivity.
Qed.

Lemma Promise_all_map_fulfilled {A B : Type} (g : A -> Result B) (l : list A) (vs : list B)
    (x : A) (v : B) :
  Promise_all (map g l) = Ok vs -> In x l -> g x = Ok v -> In v vs.
Proof.
  revert vs. induction l as [ | a l IH]; intros vs Hall Hin Hx; [destruct Hin | ].
  cbn [map Promise_all] in Hall.
  destruct (g a) as [b | m] eqn:Ha; [ | discriminate].
  destruct (Promise_all (map g l)) as [bs | m] eqn:Hrest; [ | discriminate].
  injection Hall as <-.
  destruct Hin as [-> | Hin].
  - left. congruence.
  - right. apply IH; auto.
Qed.

Lemma filter_isImageFile_twice {N : Type} (files : list (File N)) :
  filter isImageFile (filter isImageFile files) = filter isImageFile files.
Proof.
  induction files as [ | f fs IH]; [reflexivity | ].
  cbn [filter]. destruct (isImageFile f) eqn:Hf; [ | exact IH].
  cbn [filter]. rewrite Hf, IH. reflexivity.
Qed.

(** ** The order in which a batch loads *)

Lemma insertByTime_Permutation {N : Type} (time : nat -> nat) (p : nat * DataUrl N)
    (l : list (nat * DataUrl N)) :
  Permutation (Gallery.insertByTime time p l) (p :: l).
Proof.
  induction l as [ | q rest IH]; cbn [Gallery.insertByTime]; [reflexivity | ].
  destruct (Nat.leb _ _); [reflexivity | ].
  etransitivity; [apply perm_skip, IH | apply perm_swap].
Qed.

Lemma loadOrder_Permutation {N : Type} (time : nat -> nat) (urls : list (DataUrl N)) :
  Permutation (Gallery.loadOrder time urls) (combine (seq 0 (List.length urls)) urls).
Proof.
  unfold Gallery.loadOrder. generalize (combine (seq 0 (List.length urls)) urls).
  intros l. induction l as [ | p l IH]; cbn [fold_right]; [constructor | ].
  etransitivity; [apply insertByTime_Permutation | apply perm_skip, IH].
Qed.

Lemma combine_seq_In {A : Type} (l : list A) (start i : nat) (a : A) :
  In (i, a) (combine (seq start (List.length l)) l)
  <-> (start <= i)%nat /\ nth_error l (i - start) = Some a.
Proof.
  revert start. induction l as [ | h t IH]; intros start; cbn [List.length seq combine In].
  - split; [intros [] | intros [_ Hnth]]. destruct (i - start)%nat; discriminate.
  - rewrite IH. split.
    + intros [Heq | [Hle Hnth]].
      * injection Heq as <- <-. split; [apply Nat.le_refl | ].
        rewrite Nat.sub_diag. reflexivity.
      * split; [lia | ].
        replace (i - start)%nat with (S (i - S start)) by lia. exact Hnth.
    + intros [Hle Hnth]. destruct (Nat.eq_dec i start) as [-> | Hne].
      * left. rewrite Nat.sub_diag in Hnth. injection Hnth as ->. reflexivity.
      * right. split; [lia | ].
        replace (i - start)%nat with (S (i - S start)) in Hnth by lia. exact Hnth.
Qed.

(** The load order lists every position of the batch once, with its URL. *)
Lemma loadOrder_In {N : Type} (time : nat -> nat) (urls : list (DataUrl N))
    (i : nat) (url : DataUrl N) :
  In (i, url) (Gallery.loadOrder time urls) <-> nth_error urls i = Some url.
Proof.
  pose proof (loadOrder_Permutation time urls) as Hperm.
  pose proof (combine_seq_In urls 0 i url) as Hin. rewrite Nat.sub_0_r in Hin.
  split.
  - intros H. apply (Permutation_in _ Hperm) in H. apply Hin in H. apply H.
  - intros H. apply (Permutation_in _ (Permutation_sym Hperm)). apply Hin.
    split; [apply Nat.le_0_l | exact H].
Qed.

Lemma loadOrder_length {N : Type} (time : nat -> nat) (urls : list (DataUrl N)) :
  List.length (Gallery.loadOrder time urls) = List.length urls.
Proof.
  rewrite (Permutation_length (loadOrder_Permutation time urls)).
  rewrite length_combine, length_seq. apply Nat.min_id.
Qed.

Lemma map_fst_combine {A B : Type} (l : list A) (l' : list B) :
  List.length l = List.length l' -> map fst (combine l l') = l.
Proof.
  revert l'. induction l as [ | a l IH]; intros [ | b l'] Hlen; try discriminate;
    [reflexivity | ].
  cbn [combine map fst]. f_equal. apply IH. injection Hlen as Hlen. exact Hlen.
Qed.

(** The positions in the load order are the positions of the batch, each
    once. *)
Lemma loadOrder_positions {N : Type} (time : nat -> nat) (urls : list (DataUrl N)) :
  Permutation (map fst (Gallery.loadOrder time urls)) (seq 0 (List.length urls)).
Proof.
  pose proof (Permutation_map fst (loadOrder_Permutation time urls)) as Hperm.
  rewrite map_fst_combine in Hperm by apply length_seq. exact Hperm.
Qed.

(** An image that does not decode rejects its promise, whenever it is
    settled. *)
Lemma Gallery_settleEach_rejects {N : Type} `{JSNumber N}
    (events : list (nat * DataUrl N)) (env : Gallery.Env N) (i : nat) (url : DataUrl N) :
  In (i, url) events -> loadImage url = None ->
  In (Err "The image file could not be loaded.") (fst (Gallery.settleEach env events)).
Proof.
  revert env. induction events as [ | [j u] rest IH]; intros env Hin Hload; [destruct Hin | ].
  cbn [Gallery.settleEach].
  destruct (Gallery.addBorderToImage (Gallery.canvasRef env) u) as [r c1] eqn:Hadd.
  destruct Hin as [Heq | Hin].
  - injection Heq as -> ->.
    unfold Gallery.addBorderToImage in Hadd. rewrite Hload in Hadd.
    injection Hadd as <- <-.
    destruct (Gallery.settleEach _ rest). left. reflexivity.
  - destruct r as [formatted | m].
    + destruct (Gallery.nextUUID _) as [uuid env2].
      specialize (IH env2 Hin Hload).
      destruct (Gallery.settleEach env2 rest). right. exact IH.
    + specialize (IH (Gallery.with_canvasRef env c1) Hin Hload).
      destruct (Gallery.settleEach _ rest). right. exact IH.
Qed.

Lemma Gallery_formatEach_rejects {N : Type} `{JSNumber N}
    (urls : list (DataUrl N)) (env : Gallery.Env N) (url : DataUrl N) :
  In url urls -> loadImage url = None ->
  In (Err "The image file could not be loaded.") (fst (Gallery.formatEach env urls)).
Proof.
  intros Hin Hload. apply In_nth_error in Hin. destruct Hin as [i Hi].
  unfold Gallery.formatEach.
  apply (@Gallery_settleEach_rejects N _ _ env i url); [ | exact Hload].
  apply loadOrder_In. exact Hi.
Qed.

Lemma Batch_processEach_rejects {N : Type} `{JSNumber N}
    (urls : list (DataUrl N)) (canvasRef : option (Canvas N)) (url : DataUrl N) :
  In url urls -> loadImage url = None ->
  In (Err "The image file could not be loaded. It may be corrupt or an unsupported format.")
     (fst (Batch.processEach canvasRef urls)).
Proof.
  revert canvasRef. induction urls as [ | u rest IH]; intros canvasRef Hin Hload;
    [destruct Hin | ].
  cbn [Batch.processEach].
  destruct (Batch.processImageDataUrl canvasRef u) as [r c1] eqn:Hadd.
  destruct Hin as [-> | Hin].
  - unfold Batch.processImageDataUrl in Hadd. rewrite Hload in Hadd.
    injection Hadd as <- <-.
    destruct (Batch.processEach _ rest). left. reflexivity.
  - specialize (IH c1 Hin Hload).
    destruct (Batch.processEach c1 rest). right. exact IH.
Qed.

(** C7, amended.  Files whose type does not start with image/ are not
    errors: [handleFiles] (both revisions) drops them and treats the batch
    exactly as if they had not been selected.  The batch fails as a whole,
    with a message and an empty gallery, when no image-typed file is left,
    or when an image-typed file cannot be read or does not decode. *)
Theorem handleFiles_skips_other_types_and_fails_fast
    {N : Type} `{JSNumber N} (env : Gallery.Env N) (canvasRef : option (Canvas N))
    (files : list (File N)) (s : Gallery.AppState N) (b : Batch.AppState N) :
  files <> [] ->
  let imageFiles := filter isImageFile files in
  let later := Gallery.run (fst (Gallery.handleFiles env (Some files))) s in
  let laterB := Batch.run (fst (Batch.handleFiles canvasRef (Some files))) b in
  (imageFiles <> [] ->
   Gallery.handleFiles env (Some files) = Gallery.handleFiles env (Some imageFiles)
   /\ Batch.handleFiles canvasRef (Some files) = Batch.handleFiles canvasRef (Some imageFiles))
  /\ (imageFiles = [] ->
      Gallery.error later = Some "No valid image files selected."
      /\ Gallery.images later = []
      /\ Batch.error laterB
         = Some "No valid image files selected. Please upload JPEG, PNG, or GIF files."
      /\ Batch.formattedImageUrls laterB = [])
  /\ ((exists f, In f imageFiles /\ unusable f) ->
      (exists m, Gallery.error later = Some m)
      /\ Gallery.images later = []
      /\ (exists m, Batch.error laterB = Some m)
      /\ Batch.formattedImageUrls laterB = []).
Proof.
  intros Hne imageFiles later laterB.
  destruct files as [ | f0 fs]; [congruence | clear Hne].
  split; [ | split].
  - (* other types are skipped *)
    intros Hsome.
    unfold Gallery.handleFiles, Batch.handleFiles.
    fold imageFiles.
    destruct imageFiles as [ | i l] eqn:Himg; [congruence | ].
    rewrite <- Himg. unfold imageFiles. rewrite filter_isImageFile_twice.
    fold imageFiles. rewrite Himg. split; reflexivity.
  - (* nothing but other types *)
    intros Hnone. subst later laterB.
    unfold Gallery.handleFiles, Batch.handleFiles.
    fold imageFiles. rewrite Hnone. repeat split; reflexivity.
  - (* an image-typed file that is unusable *)
    intros [f [Hin Hbad]]. subst later laterB.
    unfold Gallery.handleFiles, Batch.handleFiles. fold imageFiles.
    destruct imageFiles as [ | i l] eqn:Himg; [destruct Hin | ].
    assert (Hread : forall urls,
               Promise_all (map Gallery.readSingleFile (i :: l)) = Ok urls ->
               exists url, In url urls /\ loadImage url = None).
    { intros urls Hall. destruct Hbad as [Hnodata | [url [Hdata Hload]]].
      - exfalso.
        assert (Hrej : In (Err "Failed to read the selected file.")
                          (map Gallery.readSingleFile (i :: l))).
        { apply in_map_iff. exists f. split; [ | exact Hin].
          unfold Gallery.readSingleFile. rewrite Hnodata. reflexivity. }
        destruct (Promise_all_rejects _ _ Hrej) as [m' Hm']. congruence.
      - exists url. split; [ | exact Hload].
        eapply Promise_all_map_fulfilled; [exact Hall | exact Hin | ].
        unfold Gallery.readSingleFile. rewrite Hdata. reflexivity. }
    split; [ | split; [ | split]].
    + destruct (Promise_all (map Gallery.readSingleFile (i :: l))) as [urls | m] eqn:Hall.
      * destruct (Hread urls eq_refl) as [url [Hurl Hload]].
        unfold Gallery.processAndAddImages.
        pose proof (Gallery_formatEach_rejects urls env url Hurl Hload) as Hrej.
        destruct (Gallery.formatEach env urls) as [rs env']. cbn [fst] in Hrej.
        destruct (Promise_all_rejects _ _ Hrej) as [m' ->].
        exists m'. reflexivity.
      * exists m. reflexivity.
    + destruct (Promise_all (map Gallery.readSingleFile (i :: l))) as [urls | m] eqn:Hall.
      * destruct (Hread urls eq_refl) as [url [Hurl Hload]].
        unfold Gallery.processAndAddImages.
        pose proof (Gallery_formatEach_rejects urls env url Hurl Hload) as Hrej.
        destruct (Gallery.formatEach env urls) as [rs env']. cbn [fst] in Hrej.
        destruct (Promise_all_rejects _ _ Hrej) as [m' ->].
        reflexivity.
      * reflexivity.
    + change (map Batch.readSingleFile (i :: l)) with (map Gallery.readSingleFile (i :: l)).
      destruct (Promise_all (map Gallery.readSingleFile (i :: l))) as [urls | m] eqn:Hall.
      * destruct (Hread urls eq_refl) as [url [Hurl Hload]].
        pose proof (Batch_processEach_rejects urls canvasRef url Hurl Hload) as Hrej.
        destruct (Batch.processEach canvasRef urls) as [rs c']. cbn [fst] in Hrej.
        destruct (Promise_all_rejects _ _ Hrej) as [m' ->].
        exists m'. reflexivity.
      * exists m. reflexivity.
    + change (map Batch.readSingleFile (i :: l)) with (map Gallery.readSingleFile (i :: l)).
      destruct (Promise_all (map Gallery.readSingleFile (i :: l))) as [urls | m] eqn:Hall.
      * destruct (Hread urls eq_refl) as [url [Hurl Hload]].
        pose proof (Batch_processEach_rejects urls canvasRef url Hurl Hload) as Hrej.
        destruct (Batch.processEach canvasRef urls) as [rs c']. cbn [fst] in Hrej.
        destruct (Promise_all_rejects _ _ Hrej) as [m' ->].
        reflexivity.
      * reflexivity.
Qed.

(** The amended C7 at a batch whose second file is an image that does not
    decode: the batch fails and nothing is shown. *)
Lemma handleFiles_skips_other_types_and_fails_fast_witness :
  (exists m,
     Gallery.error (Gallery.run (fst (Gallery.handleFiles page (Some brokenBatch))) twoPictures)
     = Some m)
  /\ Gallery.images (Gallery.run (fst (Gallery.handleFiles page (Some brokenBatch))) twoPictures)
     = [].
Proof.
  destruct (@handleFiles_skips_other_types_and_fails_fast Q _ page (Some (createCanvas true))
              brokenBatch twoPictures Batch.initialState)
    as [_ [_ Hfail]]; [discriminate | ].
  destruct Hfail as [Herr [Himg _]].
  - exists brokenPngFile. split.
    + right; left; reflexivity.
    + right. exists (Corrupt 1). split; reflexivity.
  - split; assumption.
Defined.

(** C7, as it is stated, fails: of three files selected together, the
    second one a text file, the two pictures are composited and shown and
    no error is reported, in both revisions of [handleFiles]. *)
Lemma batch_with_text_file_shows_the_pictures :
  isImageFile textFile = false
  /\ In textFile mixedBatch
  /\ Gallery.error (Gallery.run (fst (Gallery.handleFiles page (Some mixedBatch)))
                      Gallery.initialState) = None
  /\ map Gallery.originalSrc
       (Gallery.images (Gallery.run (fst (Gallery.handleFiles page (Some mixedBatch)))
                          Gallery.initialState))
     = [Photo 400 400 1; Photo 300 500 3]
  /\ Batch.error (Batch.run (fst (Batch.handleFiles (Some (createCanvas true))
                                   (Some mixedBatch)))
                    Batch.initialState) = None
  /\ List.length (Batch.formattedImageUrls
               (Batch.run (fst (Batch.handleFiles (Some (createCanvas true))
                                  (Some mixedBatch)))
                  Batch.initialState)) = 2%nat.
Proof.
  split; [reflexivity | ].
  split; [right; left; reflexivity | ].
  repeat split; vm_compute; reflexivity.
Qed.

(** ** Applying a crop *)

Lemma find_map_keeping_test {A : Type} (p : A -> bool) (g : A -> A) (l : list A) :
  (forall a, p (g a) = p a) ->
  find p (map g l) = option_map g (find p l).
Proof.
  intros Hkeep. induction l as [ | a l IH]; [reflexivity | ].
  cbn [map find]. rewrite Hkeep. destruct (p a); [reflexivity | exact IH].
Qed.

Lemma find_absent {A : Type} (p : A -> bool) (l : list A) :
  (forall a, In a l -> p a = false) -> find p l = None.
Proof.
  induction l as [ | a l IH]; intros Hall; [reflexivity | ].
  cbn [find]. rewrite (Hall a (or_introl eq_refl)).
  apply IH. intros b Hb. apply Hall. right. exact Hb.
Qed.

Lemma find_present {A : Type} (p : A -> bool) (l : list A) (a : A) :
  In a l -> p a = true -> exists b, find p l = Some b /\ p b = true.
Proof.
  intros Hin Hp. destruct (find p l) as [b | ] eqn:Hfind.
  - exists b. split; [reflexivity | ]. apply (find_some _ _ Hfind).
  - rewrite (find_none _ _ Hfind a Hin) in Hp. discriminate.
Qed.

(** The updates of a crop that goes through. *)
Lemma Gallery_handleApplyCrop_fulfilled {N : Type} `{JSNumber N}
    (s : Gallery.AppState N) (env : Gallery.Env N)
    (target : Gallery.ImageState N) (selection : Gallery.PixelCrop N)
    (img : HTMLImageElement N) (croppedImageUrl newlyFormattedUrl : DataUrl N) :
  Gallery.croppingImage s = Some target ->
  Gallery.completedCrop s = Some selection ->
  Gallery.imgRef env = Some img ->
  zeroArea selection = false ->
  Gallery.getCroppedImg (Gallery.has2d env) img selection = Ok croppedImageUrl ->
  fst (Gallery.addBorderToImage (Gallery.canvasRef env) croppedImageUrl)
  = Ok newlyFormattedUrl ->
  fst (Gallery.handleApplyCrop s env)
  = [Gallery.SetIsLoading true;
     Gallery.UpdateImages (Gallery.replaceCropped target newlyFormattedUrl croppedImageUrl);
     Gallery.SetCroppingImage None;
     Gallery.SetIsLoading false].
Proof.
  intros Hcropping Hcompleted Himg Harea Hcrop Hformat.
  unfold Gallery.handleApplyCrop. rewrite Hcropping, Hcompleted, Himg.
  unfold zeroArea in Harea. rewrite Harea, Hcrop.
  destruct (Gallery.addBorderToImage _ _) as [r c']. cbn [fst] in Hformat. subst r.
  reflexivity.
Qed.

(** C8.  When a crop goes through, [handleApplyCrop] changes the gallery in
    a single update: every intermediate state shows either the gallery as
    it was or the gallery with, for the cropped entry, both the original and
    the formatted image replaced; every other entry stays as it was, at its
    place; and pressing Crop on the entry again opens the dialog on the
    cropped original. *)
Theorem applied_crop_replaces_both_sources
    {N : Type} `{JSNumber N} (s : Gallery.AppState N) (env : Gallery.Env N)
    (target : Gallery.ImageState N) (selection : Gallery.PixelCrop N)
    (img : HTMLImageElement N) (croppedImageUrl newlyFormattedUrl : DataUrl N) :
  Gallery.croppingImage s = Some target ->
  Gallery.completedCrop s = Some selection ->
  Gallery.imgRef env = Some img ->
  zeroArea selection = false ->
  Gallery.getCroppedImg (Gallery.has2d env) img selection = Ok croppedImageUrl ->
  fst (Gallery.addBorderToImage (Gallery.canvasRef env) croppedImageUrl)
  = Ok newlyFormattedUrl ->
  let us := fst (Gallery.handleApplyCrop s env) in
  let s' := Gallery.run us s in
  let reopened := Gallery.run (Gallery.handleCropClick s' (Gallery.id target)) s' in
  (forall st, In st (Gallery.states us s) ->
     Gallery.images st = Gallery.images s \/ Gallery.images st = Gallery.images s')
  /\ (forall i e, nth_error (Gallery.images s) i = Some e ->
        nth_error (Gallery.images s') i
        = Some (if String.eqb (Gallery.id e) (Gallery.id target)
                then {| Gallery.id := Gallery.id e;
                        Gallery.originalSrc := croppedImageUrl;
                        Gallery.formattedSrc := newlyFormattedUrl |}
                else e))
  /\ List.length (Gallery.images s') = List.length (Gallery.images s)
  /\ (forall e, In e (Gallery.images s) -> Gallery.id e = Gallery.id target ->
        exists e' img',
          Gallery.croppingImage reopened = Some e'
          /\ Gallery.id e' = Gallery.id target
          /\ Gallery.originalSrc e' = croppedImageUrl
          /\ Gallery.formattedSrc e' = newlyFormattedUrl
          /\ Gallery.imgRef (Gallery.render reopened (snd (Gallery.handleApplyCrop s env)))
             = Some img'
          /\ src img' = croppedImageUrl
          /\ forall selection', exists canvas sx sy sw sh,
               Gallery.getCroppedImg true img' selection' = Ok (toDataURL canvas)
               /\ drawn canvas
                  = [DrawImage9 croppedImageUrl sx sy sw sh (js_lit 0) (js_lit 0)
                       (canvas_width canvas) (canvas_height canvas)]).
Proof.
  intros Hcropping Hcompleted Himg Harea Hcrop Hformat us s' reopened.
  pose proof (Gallery_handleApplyCrop_fulfilled s env Hcropping Hcompleted Himg Harea
                Hcrop Hformat) as Hus.
  assert (Himages : Gallery.images s'
                    = Gallery.replaceCropped target newlyFormattedUrl croppedImageUrl
                        (Gallery.images s)).
  { subst s' us. rewrite Hus. reflexivity. }
  split; [ | split; [ | split]].
  - intros st Hin. subst s' us. rewrite Hus in *. cbn in Hin.
    destruct Hin as [<- | [<- | [<- | [<- | [<- | []]]]]];
      first [left; reflexivity | right; reflexivity].
  - intros i e Hnth. rewrite Himages. unfold Gallery.replaceCropped.
    rewrite nth_error_map, Hnth. reflexivity.
  - rewrite Himages. unfold Gallery.replaceCropped. apply length_map.
  - intros e Hin Hid.
    assert (Hfind : exists e0 : Gallery.ImageState N,
               find (fun img0 => String.eqb (Gallery.id img0) (Gallery.id target))
                    (Gallery.images s') = Some
                 {| Gallery.id := Gallery.id e0;
                    Gallery.originalSrc := croppedImageUrl;
                    Gallery.formattedSrc := newlyFormattedUrl |}
               /\ Gallery.id e0 = Gallery.id target).
    { rewrite Himages. unfold Gallery.replaceCropped.
      rewrite find_map_keeping_test.
      - destruct (find_present
                    (fun img0 : Gallery.ImageState N => String.eqb (Gallery.id img0) (Gallery.id target))
                    (Gallery.images s) e Hin) as [e0 [Hfound Htest]].
        + cbn. rewrite Hid. apply String.eqb_refl.
        + exists e0. rewrite Hfound. cbn [option_map]. cbn beta in Htest.
          rewrite Htest. split; [reflexivity | ]. apply String.eqb_eq. exact Htest.
      - intros a. cbn beta.
        destruct (String.eqb (Gallery.id a) (Gallery.id target)) eqn:Ha; cbn; exact Ha. }
    destruct Hfind as [e0 [Hfound Hid0]].
    assert (Hreopened : Gallery.croppingImage reopened
                        = Some {| Gallery.id := Gallery.id e0;
                                  Gallery.originalSrc := croppedImageUrl;
                                  Gallery.formattedSrc := newlyFormattedUrl |}).
    { subst reopened. unfold Gallery.handleCropClick. rewrite Hfound. reflexivity. }
    unfold Gallery.render. rewrite Hreopened. cbn [Gallery.originalSrc].
    destruct (Gallery.layout _ croppedImageUrl) as [w h].
    destruct (loadImage croppedImageUrl) as [i | ];
      do 2 eexists; (split; [reflexivity | ]);
      (split; [exact Hid0 | ]); (split; [reflexivity | ]); (split; [reflexivity | ]);
      (split; [reflexivity | ]); (split; [reflexivity | ]);
      intros selection'; do 5 eexists; split; reflexivity.
Qed.

(** C8 at the dialog opened on entry b with the selection (10, 10, 50, 50). *)
Lemma applied_crop_replaces_both_sources_witness :
  List.length (Gallery.images
                 (Gallery.run (fst (Gallery.handleApplyCrop dialogOnB pageWithDialog)) dialogOnB))
  = List.length (Gallery.images dialogOnB).
Proof.
  refine (proj1 (proj2 (proj2
            (@applied_crop_replaces_both_sources Q _ dialogOnB pageWithDialog
               _ _ _ _ _ _ _ _ _ _ _)))).
  - vm_compute. reflexivity.
  - vm_compute. reflexivity.
  - vm_compute. reflexivity.
  - vm_compute. reflexivity.
  - vm_compute. reflexivity.
  - vm_compute. reflexivity.
Defined.

(** The updater of [handleApplyCrop] changes no entry of a gallery that
    does not hold the id it looks for. *)
Lemma Gallery_replaceCropped_absent {N : Type}
    (stale : Gallery.ImageState N) (formatted cropped : DataUrl N)
    (l : list (Gallery.ImageState N)) :
  (forall e, In e l -> Gallery.id e <> Gallery.id stale) ->
  Gallery.replaceCropped stale formatted cropped l = l.
Proof.
  unfold Gallery.replaceCropped.
  induction l as [ | e l IH]; intros Hstale; [reflexivity | ].
  cbn [map].
  assert (He : String.eqb (Gallery.id e) (Gallery.id stale) = false).
  { apply String.eqb_neq. apply Hstale. left. reflexivity. }
  rewrite He, IH; [reflexivity | ].
  intros e' He'. apply Hstale. right. exact He'.
Qed.

(** C9, as it is stated, fails: asking to crop an entry id that is not in
    the gallery reports no error at all; the request is dropped. *)
Lemma cropping_an_unknown_entry_reports_no_error :
  (forall e, In e (Gallery.images twoPictures) -> Gallery.id e <> "zz")
  /\ Gallery.handleCropClick twoPictures "zz" = []
  /\ Gallery.error (fst (Gallery.applyCrop twoPictures pageAfterUpload "zz"
                           (region 10 10 50 50))) = None.
Proof.
  split; [ | split; vm_compute; reflexivity].
  intros e [<- | [<- | []]]; discriminate.
Qed.

(** C9, amended.  With no dialog open, asking to crop an entry id that is
    not in the gallery is dropped without any error: [handleCropClick]
    issues no update, and the whole path leaves the React state (gallery
    and error included) and the canvas exactly as they were.  And were a
    dialog open on an entry that is no longer in the gallery, the update of
    [handleApplyCrop] would change no entry. *)
Theorem cropping_an_unknown_entry_is_dropped
    {N : Type} `{JSNumber N} (s : Gallery.AppState N) (env : Gallery.Env N)
    (entryId : string) (selection : Gallery.PixelCrop N)
    (stale : Gallery.ImageState N) (formatted cropped : DataUrl N) :
  Gallery.croppingImage s = None ->
  (forall e, In e (Gallery.images s) -> Gallery.id e <> entryId) ->
  Gallery.handleCropClick s entryId = []
  /\ fst (Gallery.applyCrop s env entryId selection) = s
  /\ Gallery.canvasRef (snd (Gallery.applyCrop s env entryId selection))
     = Gallery.canvasRef env
  /\ ((forall e, In e (Gallery.images s) -> Gallery.id e <> Gallery.id stale) ->
      Gallery.replaceCropped stale formatted cropped (Gallery.images s) = Gallery.images s).
Proof.
  intros Hclosed Habsent.
  assert (Hclick : Gallery.handleCropClick s entryId = []).
  { unfold Gallery.handleCropClick. rewrite find_absent; [reflexivity | ].
    intros e He. apply String.eqb_neq. apply Habsent. exact He. }
  split; [exact Hclick | ].
  unfold Gallery.applyCrop. rewrite Hclick. cbn [Gallery.run fold_left].
  unfold Gallery.handleApplyCrop, Gallery.render. rewrite Hclosed. cbn.
  rewrite Hclosed.
  split; [reflexivity | split; [reflexivity | ]].
  intros Hstale. apply Gallery_replaceCropped_absent. exact Hstale.
Qed.

(** The amended C9 at the two-picture gallery and the id zz. *)
Lemma cropping_an_unknown_entry_is_dropped_witness :
  fst (Gallery.applyCrop twoPictures pageAfterUpload "zz" (region 10 10 50 50)) = twoPictures.
Proof.
  refine (proj1 (proj2
            (@cropping_an_unknown_entry_is_dropped Q _ twoPictures pageAfterUpload "zz"
               (region 10 10 50 50)
               {| Gallery.id := "zz"; Gallery.originalSrc := EmptyData;
                  Gallery.formattedSrc := EmptyData |}
               EmptyData EmptyData _ _))).
  - vm_compute. reflexivity.
  - intros e He. vm_compute in He. destruct He as [<- | [<- | []]]; discriminate.
Defined.

(** ** Ingestion and the previous gallery *)

(** The ways [Gallery.handleFiles] can go for a non-empty selection. *)
Lemma Gallery_handleFiles_cases {N : Type} `{JSNumber N}
    (env : Gallery.Env N) (f : File N) (fs : list (File N)) :
  let started :=
    [Gallery.SetIsLoading true; Gallery.SetError None; Gallery.SetImages [];
     Gallery.SetCurrentImageIndex (js_lit 0)] in
  (exists m,
     fst (Gallery.handleFiles env (Some (f :: fs)))
     = started ++ [Gallery.SetError (Some m); Gallery.SetIsLoading false])
  \/ (exists newImages,
        fst (Gallery.handleFiles env (Some (f :: fs)))
        = started ++ [Gallery.UpdateImages (fun prev => prev ++ newImages);
                      Gallery.SetIsLoading false]).
Proof.
  intros started. unfold Gallery.handleFiles.
  destruct (filter isImageFile (f :: fs)) as [ | i l].
  - left. eexists. reflexivity.
  - destruct (Promise_all _) as [urls | m].
    + unfold Gallery.processAndAddImages.
      destruct (Gallery.formatEach env urls) as [rs env'].
      destruct (Promise_all rs) as [newImages | m].
      * right. eexists. reflexivity.
      * left. eexists. reflexivity.
    + left. eexists. reflexivity.
Qed.

Lemma Batch_handleFiles_cases {N : Type} `{JSNumber N}
    (canvasRef : option (Canvas N)) (f : File N) (fs : list (File N)) :
  let started :=
    [Batch.SetIsLoading true; Batch.SetError None; Batch.SetFormattedImageUrls []] in
  (exists m,
     fst (Batch.handleFiles canvasRef (Some (f :: fs)))
     = started ++ [Batch.SetError (Some m); Batch.SetIsLoading false])
  \/ (exists processedUrls,
        fst (Batch.handleFiles canvasRef (Some (f :: fs)))
        = started ++ [Batch.SetFormattedImageUrls processedUrls; Batch.SetIsLoading false]).
Proof.
  intros started. unfold Batch.handleFiles.
  destruct (filter isImageFile (f :: fs)) as [ | i l].
  - left. eexists. reflexivity.
  - destruct (Promise_all _) as [urls | m].
    + destruct (Batch.processEach canvasRef urls) as [rs c'].
      destruct (Promise_all rs) as [processedUrls | m].
      * right. eexists. reflexivity.
      * left. eexists. reflexivity.
    + left. eexists. reflexivity.
Qed.

(** C10.  For a non-empty selection, whatever the files are, [handleFiles]
    (both revisions) begins with [setIsLoading(true)], [setError(null)] and
    the update that empties the gallery, before it looks at any file.  The
    gallery it ends with does not depend on the gallery it started from, and
    is empty whenever the run ends with an error message (a failed batch, or
    no image file in the selection). *)
Theorem handleFiles_empties_the_gallery_first
    {N : Type} `{JSNumber N} (env : Gallery.Env N) (canvasRef : option (Canvas N))
    (f : File N) (fs : list (File N))
    (s s0 : Gallery.AppState N) (b b0 : Batch.AppState N) :
  let us := fst (Gallery.handleFiles env (Some (f :: fs))) in
  let usB := fst (Batch.handleFiles canvasRef (Some (f :: fs))) in
  ((exists rest,
      us = [Gallery.SetIsLoading true; Gallery.SetError None; Gallery.SetImages []] ++ rest)
   /\ Gallery.images
        (Gallery.run [Gallery.SetIsLoading true; Gallery.SetError None; Gallery.SetImages []] s)
      = []
   /\ Gallery.images (Gallery.run us s) = Gallery.images (Gallery.run us s0)
   /\ (forall m, Gallery.error (Gallery.run us s) = Some m ->
       Gallery.images (Gallery.run us s) = []))
  /\ ((exists rest,
         usB = [Batch.SetIsLoading true; Batch.SetError None; Batch.SetFormattedImageUrls []]
               ++ rest)
      /\ Batch.formattedImageUrls
           (Batch.run [Batch.SetIsLoading true; Batch.SetError None;
                       Batch.SetFormattedImageUrls []] b)
         = []
      /\ Batch.formattedImageUrls (Batch.run usB b)
         = Batch.formattedImageUrls (Batch.run usB b0)
      /\ (forall m, Batch.error (Batch.run usB b) = Some m ->
          Batch.formattedImageUrls (Batch.run usB b) = [])).
Proof.
  intros us usB. split.
  - subst us.
    destruct (Gallery_handleFiles_cases env f fs) as [[m ->] | [newImages ->]].
    + split; [eexists; reflexivity | ].
      split; [reflexivity | ]. split; [reflexivity | ]. intros _ _. reflexivity.
    + split; [eexists; reflexivity | ].
      split; [reflexivity | ]. split; [reflexivity | ]. intros m Hm. discriminate Hm.
  - subst usB.
    destruct (Batch_handleFiles_cases canvasRef f fs) as [[m ->] | [processedUrls ->]].
    + split; [eexists; reflexivity | ].
      split; [reflexivity | ]. split; [reflexivity | ]. intros _ _. reflexivity.
    + split; [eexists; reflexivity | ].
      split; [reflexivity | ]. split; [reflexivity | ]. intros m Hm. discriminate Hm.
Qed.

(** C10 at a failing batch dropped on the two-picture gallery: the two
    pictures are gone. *)
Lemma handleFiles_empties_the_gallery_first_witness :
  Gallery.images (Gallery.run (fst (Gallery.handleFiles page (Some brokenBatch))) twoPictures)
  = [].
Proof.
  refine (proj2 (proj2 (proj2 (proj1
            (@handleFiles_empties_the_gallery_first Q _ page (Some (createCanvas true))
               (pngFile 400 400 1) [brokenPngFile; pngFile 300 500 3]
               twoPictures Gallery.initialState Batch.initialState Batch.initialState))))
            "The image file could not be loaded." _).
  vm_compute. reflexivity.
Defined.

(** * Further properties of the code *)

(** ** More on the compositor *)

(** Exact arithmetic: for a positive height, [aspect > 1] and
    [width > height] are the same test. *)
Lemma Q_gtb_aspect (w h : Q) : 0 < h -> js_gtb (js_div w h) (js_lit 1) = js_gtb w h.
Proof.
  intros Hh. cbn [js_gtb js_div js_lit Q_number]. f_equal.
  destruct (Qle_bool w h) eqn:Hwh.
  - apply Qle_bool_iff. apply Qle_bool_iff in Hwh.
    apply Qle_shift_div_r; [exact Hh | ]. rewrite Qmult_1_l. exact Hwh.
  - destruct (Qle_bool (w / h) 1) eqn:Hr; [ | reflexivity].
    apply Qle_bool_iff in Hr.
    assert (Hle : w <= h).
    { assert (Hw : w == (w / h) * h) by (field; intros H0; rewrite H0 in Hh; discriminate).
      assert (Hm : (w / h) * h <= 1 * h)
        by (apply Qmult_le_compat_r; [exact Hr | apply Qlt_le_weak; exact Hh]).
      rewrite <- Hw, Qmult_1_l in Hm. exact Hm. }
    apply Qle_bool_iff in Hle. congruence.
Qed.

(** X1.  The three revisions of the compositor are the same function of a
    decodable source with a positive height: the test [aspect > 1] of the
    first two and the test [width > height] of the third select the same
    branch, and the outcomes are equal, failures of the canvas included.
    Exact arithmetic. *)
Theorem compositors_agree
    (canvasRef : option (Canvas Q)) (url : DataUrl Q) (image : HTMLImageElement Q) :
  loadImage url = Some image ->
  0 < height image ->
  Batch.processImageDataUrl canvasRef url = Gallery.addBorderToImage canvasRef url
  /\ Single_output (fst (Single.processAndSetImage canvasRef url))
     = fst (Gallery.addBorderToImage canvasRef url)
  /\ snd (Single.processAndSetImage canvasRef url)
     = snd (Gallery.addBorderToImage canvasRef url).
Proof.
  intros Hload Hh.
  unfold Batch.processImageDataUrl, Single.processAndSetImage, Gallery.addBorderToImage.
  rewrite Hload. destruct canvasRef as [canvas | ]; [ | repeat split; reflexivity].
  destruct (context2d canvas); cbn [negb]; [ | repeat split; reflexivity].
  rewrite (@Q_gtb_aspect (width image) (height image) Hh).
  destruct (js_gtb (width image) (height image)); repeat split; reflexivity.
Qed.

(** X1 at the 1600 x 900 photograph. *)
Lemma compositors_agree_witness :
  Batch.processImageDataUrl (Some (createCanvas true)) (Photo 1600 900 0)
  = Gallery.addBorderToImage (Some (createCanvas true)) (Photo 1600 900 0).
Proof.
  refine (proj1 (@compositors_agree (Some (createCanvas true)) (Photo 1600 900 0) _ _ _)).
  - vm_compute. reflexivity.
  - vm_compute. reflexivity.
Defined.

(* X2 HERE *)

(** A composition that succeeds leaves a canvas with a 2d context behind,
    and its result does not depend on what the canvas held before. *)
Lemma Gallery_addBorderToImage_reuse {N : Type} `{JSNumber N}
    (c c0 : Canvas N) (url : DataUrl N) :
  context2d c = true -> context2d c0 = true ->
  fst (Gallery.addBorderToImage (Some c) url) = fst (Gallery.addBorderToImage (Some c0) url)
  /\ exists c', snd (Gallery.addBorderToImage (Some c) url) = Some c' /\ context2d c' = true.
Proof.
  intros Hc Hc0. unfold Gallery.addBorderToImage.
  destruct (loadImage url) as [image | ].
  - rewrite Hc, Hc0. cbn [negb fst snd]. split; [reflexivity | ].
    eexists. split; [reflexivity | exact Hc].
  - cbn [fst snd]. split; [reflexivity | ]. exists c. split; [reflexivity | exact Hc].
Qed.

Lemma Batch_processImageDataUrl_reuse {N : Type} `{JSNumber N}
    (c c0 : Canvas N) (url : DataUrl N) :
  context2d c = true -> context2d c0 = true ->
  fst (Batch.processImageDataUrl (Some c) url) = fst (Batch.processImageDataUrl (Some c0) url)
  /\ exists c', snd (Batch.processImageDataUrl (Some c) url) = Some c' /\ context2d c' = true.
Proof.
  intros Hc Hc0. unfold Batch.processImageDataUrl.
  destruct (loadImage url) as [image | ].
  - rewrite Hc, Hc0. cbn [negb].
    destruct (js_gtb _ _); cbn [fst snd]; (split; [reflexivity | ]);
      eexists; (split; [reflexivity | exact Hc]).
  - cbn [fst snd]. split; [reflexivity | ]. exists c. split; [reflexivity | exact Hc].
Qed.

Lemma Batch_processEach_alone {N : Type} `{JSNumber N}
    (urls : list (DataUrl N)) (c c0 : Canvas N) :
  context2d c = true -> context2d c0 = true ->
  fst (Batch.processEach (Some c) urls)
  = map (fun url => fst (Batch.processImageDataUrl (Some c0) url)) urls
  /\ exists c', snd (Batch.processEach (Some c) urls) = Some c' /\ context2d c' = true.
Proof.
  revert c. induction urls as [ | url rest IH]; intros c Hc Hc0.
  - split; [reflexivity | ]. exists c. split; [reflexivity | exact Hc].
  - cbn [Batch.processEach map].
    destruct (Batch_processImageDataUrl_reuse c c0 url Hc Hc0) as [Hfst [c1 [Hsnd Hc1]]].
    destruct (Batch.processImageDataUrl (Some c) url) as [r cref1].
    cbn [fst snd] in Hfst, Hsnd. subst cref1 r.
    destruct (IH c1 Hc1 Hc0) as [Hrest [c' [Hsnd' Hc']]].
    destruct (Batch.processEach (Some c1) rest) as [rs cref2].
    cbn [fst snd] in *. subst rs. split; [reflexivity | ].
    exists c'. split; assumption.
Qed.

Lemma Promise_all_fulfilled {A : Type} (rs : list (Result A)) (vs : list A) :
  Promise_all rs = Ok vs <-> rs = map (@Ok A) vs.
Proof.
  revert vs. induction rs as [ | r rest IH]; intros vs.
  - cbn. split.
    + intros Heq. injection Heq as <-. reflexivity.
    + destruct vs; [reflexivity | discriminate].
  - cbn [Promise_all]. destruct r as [a | m].
    + destruct (Promise_all rest) as [l | m] eqn:Hrest.
      * split.
        -- intros Heq. injection Heq as <-. cbn [map]. f_equal. apply IH. reflexivity.
        -- destruct vs as [ | v vs]; [discriminate | ]. cbn [map].
           intros Heq. injection Heq as -> Hmap. apply IH in Hmap. congruence.
      * split; [discriminate | ].
        destruct vs as [ | v vs]; [discriminate | ]. cbn [map].
        intros Heq. injection Heq as -> Hmap. apply IH in Hmap. discriminate.
    + split; [discriminate | ]. destruct vs; discriminate.
Qed.

(** Every selected image file was read. *)
Lemma readAll_fulfilled {N : Type} (files : list (File N)) (urls : list (DataUrl N)) :
  map (@file_data N) files = map Some urls ->
  Promise_all (map Gallery.readSingleFile files) = Ok urls.
Proof.
  intros Hdata. apply Promise_all_fulfilled.
  revert urls Hdata. induction files as [ | f fs IH]; intros urls Hdata.
  - destruct urls; [reflexivity | discriminate].
  - destruct urls as [ | u us]; [discriminate | ].
    cbn [map] in *. injection Hdata as Hf Hrest.
    unfold Gallery.readSingleFile at 1. rewrite Hf. f_equal. apply IH. exact Hrest.
Qed.

(** X3.  [handleFiles] of src/App.tsx on a selection whose image files all
    read and decode, with the canvas mounted: the gallery becomes one
    formatted picture per image file, in the order of the selection, each
    one exactly what [processImageDataUrl] makes of that file alone on any
    canvas (reusing the one shared canvas corrupts nothing); no error is
    left and loading is off. *)
Theorem Batch_handleFiles_formats_each_alone
    {N : Type} `{JSNumber N} (c c0 : Canvas N) (files : list (File N))
    (urls : list (DataUrl N)) (b : Batch.AppState N) :
  context2d c = true ->
  context2d c0 = true ->
  filter isImageFile files <> [] ->
  map (@file_data N) (filter isImageFile files) = map Some urls ->
  (forall url, In url urls -> loadImage url <> None) ->
  let later := Batch.run (fst (Batch.handleFiles (Some c) (Some files))) b in
  map (@Ok (DataUrl N)) (Batch.formattedImageUrls later)
  = map (fun url => fst (Batch.processImageDataUrl (Some c0) url)) urls
  /\ List.length (Batch.formattedImageUrls later) = List.length (filter isImageFile files)
  /\ Batch.error later = None
  /\ Batch.isLoading later = false.
Proof.
  intros Hc Hc0 Hsome Hdata Hdecode later.
  assert (Hlen : List.length urls = List.length (filter isImageFile files)).
  { rewrite <- (length_map Some urls), <- Hdata. apply length_map. }
  subst later. unfold Batch.handleFiles.
  destruct files as [ | f0 fs]; [exfalso; apply Hsome; reflexivity | ].
  destruct (filter isImageFile (f0 :: fs)) as [ | i l] eqn:Himg; [congruence | ].
  change (map Batch.readSingleFile (i :: l)) with (map Gallery.readSingleFile (i :: l)).
  rewrite (readAll_fulfilled _ _ Hdata).
  destruct (Batch_processEach_alone urls c c0 Hc Hc0) as [Hrs _].
  destruct (Batch.processEach (Some c) urls) as [rs cref']. cbn [fst] in Hrs.
  assert (Hall : exists outs, Promise_all rs = Ok outs).
  { destruct (Promise_all rs) as [outs | m] eqn:Hp; [eexists; reflexivity | exfalso].
    clear - Hp Hrs Hdecode Hc0. subst rs.
    revert m Hp. induction urls as [ | u us IH]; intros m Hp; [discriminate | ].
    cbn [map Promise_all] in Hp.
    assert (Hu : exists out, fst (Batch.processImageDataUrl (Some c0) u) = Ok out).
    { unfold Batch.processImageDataUrl.
      destruct (loadImage u) eqn:Hl; [ | exfalso; apply (Hdecode u (or_introl eq_refl) Hl)].
      rewrite Hc0. cbn [negb]. destruct (js_gtb _ _); eexists; reflexivity. }
    destruct Hu as [out Hout]. rewrite Hout in Hp.
    destruct (Promise_all (map _ us)) as [l' | m'] eqn:Hrest; [discriminate | ].
    apply (IH (fun url Hin => Hdecode url (or_intror Hin)) m'). reflexivity. }
  destruct Hall as [outs Houts]. rewrite Houts.
  apply Promise_all_fulfilled in Houts.
  cbn [Batch.run fold_left app Batch.apply Batch.formattedImageUrls Batch.error
       Batch.isLoading fst].
  rewrite <- Houts, Hrs.
  split; [reflexivity | ]. split; [ | split; reflexivity].
  rewrite <- Hlen, <- (length_map (@Ok (DataUrl N)) outs), <- Houts, Hrs. apply length_map.
Qed.

(** X3 at the batch of two pictures and a text file. *)
Lemma Batch_handleFiles_formats_each_alone_witness :
  List.length (Batch.formattedImageUrls
                 (Batch.run (fst (Batch.handleFiles (Some (createCanvas true))
                                    (Some mixedBatch))) Batch.initialState))
  = List.length (filter isImageFile mixedBatch).
Proof.
  refine (proj1 (proj2
            (@Batch_handleFiles_formats_each_alone Q _ (createCanvas true) (createCanvas true)
               mixedBatch [Photo 400 400 1; Photo 300 500 3] Batch.initialState
               _ _ _ _ _))).
  - vm_compute. reflexivity.
  - vm_compute. reflexivity.
  - vm_compute. discriminate.
  - vm_compute. reflexivity.
  - intros url [<- | [<- | []]]; discriminate.
Defined.

(** ** More on the crop transform *)

(* X5 HERE *)

(** ** More on ingestion *)

(** What the callbacks draw: the source of ids is never replaced, draws are
    only added, and when every promise is fulfilled the k-th event of the
    batch yields the entry of its position with its URL and the k-th draw. *)
Lemma Gallery_settleEach_ids {N : Type} `{JSNumber N}
    (events : list (nat * DataUrl N)) (env : Gallery.Env N) :
  Gallery.randomUUID (snd (Gallery.settleEach env events)) = Gallery.randomUUID env
  /\ (Gallery.uuidsDrawn env <= Gallery.uuidsDrawn (snd (Gallery.settleEach env events)))%nat
  /\ forall fulfilled,
       Promise_all (fst (Gallery.settleEach env events)) = Ok fulfilled ->
       List.length fulfilled = List.length events
       /\ (forall k i e, nth_error fulfilled k = Some (i, e) ->
             nth_error events k = Some (i, Gallery.originalSrc e)
             /\ Gallery.id e = Gallery.randomUUID env (Gallery.uuidsDrawn env + k))
       /\ Gallery.uuidsDrawn (snd (Gallery.settleEach env events))
          = (Gallery.uuidsDrawn env + List.length events)%nat.
Proof.
  revert env. induction events as [ | [j url] rest IH]; intros env.
  - cbn. split; [reflexivity | split; [apply Nat.le_refl | ]].
    intros fulfilled Heq. injection Heq as <-. cbn.
    split; [reflexivity | split; [ | symmetry; apply Nat.add_0_r]].
    intros k i e Hk. destruct k; discriminate.
  - cbn [Gallery.settleEach].
    destruct (Gallery.addBorderToImage (Gallery.canvasRef env) url) as [r c1].
    destruct r as [formatted | m].
    + cbn [Gallery.nextUUID].
      match goal with
      | |- context [Gallery.settleEach ?e rest] => set (env2 := e)
      end.
      specialize (IH env2). destruct (Gallery.settleEach env2 rest) as [rs env3].
      cbn [fst snd] in *. destruct IH as [Huuid [Hle Hok]].
      split; [exact Huuid | ]. split.
      * apply Nat.le_trans with (2 := Hle). cbn. apply Nat.le_succ_diag_r.
      * intros fulfilled Hall. cbn [Promise_all] in Hall.
        destruct (Promise_all rs) as [l | m] eqn:Hrs; [ | discriminate].
        injection Hall as <-. destruct (Hok l eq_refl) as [Hlen [Hnth Hdrawn]].
        cbn [List.length]. split; [rewrite Hlen; reflexivity | ]. split.
        -- intros k i e Hk. destruct k as [ | k]; cbn [nth_error] in *.
           ++ injection Hk as <- <-. cbn [Gallery.originalSrc Gallery.id].
              rewrite Nat.add_0_r. split; reflexivity.
           ++ destruct (Hnth k i e Hk) as [Hev Hid]. split; [exact Hev | ].
              rewrite Hid. cbn [Gallery.randomUUID Gallery.uuidsDrawn env2].
              rewrite Nat.add_succ_r. reflexivity.
        -- rewrite Hdrawn. cbn [Gallery.uuidsDrawn env2]. rewrite Nat.add_succ_r. reflexivity.
    + match goal with
      | |- context [Gallery.settleEach ?e rest] => set (env2 := e)
      end.
      specialize (IH env2). destruct (Gallery.settleEach env2 rest) as [rs env3].
      cbn [fst snd] in *. destruct IH as [Huuid [Hle Hok]].
      split; [exact Huuid | ]. split; [exact Hle | ].
      intros fulfilled Hall. cbn [Promise_all] in Hall. discriminate.
Qed.

(** With the canvas mounted, each entry is formatted as it would be alone,
    and nothing is rejected unless a URL does not decode. *)
Lemma Gallery_settleEach_alone {N : Type} `{JSNumber N}
    (events : list (nat * DataUrl N)) (env : Gallery.Env N) (c c0 : Canvas N) :
  Gallery.canvasRef env = Some c -> context2d c = true -> context2d c0 = true ->
  (forall i url, In (i, url) events -> loadImage url <> None) ->
  exists fulfilled,
    Promise_all (fst (Gallery.settleEach env events)) = Ok fulfilled
    /\ forall i e, In (i, e) fulfilled ->
         fst (Gallery.addBorderToImage (Some c0) (Gallery.originalSrc e))
         = Ok (Gallery.formattedSrc e).
Proof.
  revert env c. induction events as [ | [j url] rest IH]; intros env c Hcanvas Hc Hc0 Hdecode.
  - exists []. split; [reflexivity | intros i e []].
  - cbn [Gallery.settleEach]. rewrite Hcanvas.
    destruct (Gallery_addBorderToImage_reuse c c0 url Hc Hc0) as [Hfst [c1 [Hsnd Hc1]]].
    assert (Hok : exists formatted, fst (Gallery.addBorderToImage (Some c0) url) = Ok formatted).
    { unfold Gallery.addBorderToImage.
      destruct (loadImage url) eqn:Hl;
        [ | exfalso; apply (Hdecode j url (or_introl eq_refl) Hl)].
      rewrite Hc0. eexists. reflexivity. }
    destruct Hok as [formatted Hformatted].
    destruct (Gallery.addBorderToImage (Some c) url) as [r cref1].
    cbn [fst snd] in Hfst, Hsnd. subst cref1. rewrite Hformatted in Hfst. subst r.
    cbn [Gallery.nextUUID].
    match goal with
    | |- context [Gallery.settleEach ?e rest] => set (env2 := e)
    end.
    destruct (IH env2 c1 eq_refl Hc1 Hc0 (fun i u Hin => Hdecode i u (or_intror Hin)))
      as [l [Hall Hfmt]].
    destruct (Gallery.settleEach env2 rest) as [rs env3]. cbn [fst] in *.
    eexists. cbn [Promise_all]. rewrite Hall. split; [reflexivity | ].
    intros i e [Heq | Hin].
    + injection Heq as <- <-. cbn [Gallery.originalSrc Gallery.formattedSrc]. exact Hformatted.
    + apply (Hfmt i e Hin).
Qed.

(** [valuesInOrder]: when every position has a value, the array has one
    entry per position, each a value fulfilled for that position. *)
Lemma Gallery_valuesInOrder_nth {N : Type}
    (fulfilled : list (nat * Gallery.ImageState N)) (n : nat) :
  (forall i, (i < n)%nat -> In i (map fst fulfilled)) ->
  List.length (Gallery.valuesInOrder n fulfilled) = n
  /\ forall i e, nth_error (Gallery.valuesInOrder n fulfilled) i = Some e ->
       In (i, e) fulfilled.
Proof.
  unfold Gallery.valuesInOrder.
  assert (Hgen : forall len start,
             (forall i, (start <= i < start + len)%nat -> In i (map fst fulfilled)) ->
             let values :=
               flat_map
                 (fun position =>
                    match find (fun p => Nat.eqb (fst p) position) fulfilled with
                    | Some p => [snd p]
                    | None => []
                    end)
                 (seq start len) in
             List.length values = len
             /\ forall k e, nth_error values k = Some e -> In ((start + k)%nat, e) fulfilled).
  { induction len as [ | len IH]; intros start Hall; cbn [seq flat_map].
    - split; [reflexivity | ]. intros k e Hk. destruct k; discriminate.
    - destruct (find (fun p => Nat.eqb (fst p) start) fulfilled) as [p | ] eqn:Hfind.
      + destruct (IH (S start)) as [Hlen Hnth]; [intros i Hi; apply Hall; lia | ].
        apply find_some in Hfind. destruct Hfind as [Hin Hp].
        apply Nat.eqb_eq in Hp.
        cbn [app List.length]. split; [rewrite Hlen; reflexivity | ].
        intros k e Hk. destruct k as [ | k]; cbn [nth_error] in Hk.
        * injection Hk as <-. rewrite Nat.add_0_r, <- Hp, <- surjective_pairing. exact Hin.
        * rewrite Nat.add_succ_r. apply (Hnth k e Hk).
      + exfalso. assert (Hs : In start (map fst fulfilled)) by (apply Hall; lia).
        apply in_map_iff in Hs. destruct Hs as [p [Hp Hin]].
        pose proof (find_none _ _ Hfind p Hin) as Hno. cbn beta in Hno.
        rewrite Hp, Nat.eqb_refl in Hno. discriminate. }
  intros Hall. apply (Hgen n 0%nat). intros i [_ Hi]. apply Hall. exact Hi.
Qed.

(** A batch that is fulfilled: one entry per URL, in the order of the
    URLs, each with its URL and the draw of its rank in the load order. *)
Lemma Gallery_formatEach_fulfilled {N : Type} `{JSNumber N}
    (urls : list (DataUrl N)) (env : Gallery.Env N)
    (fulfilled : list (nat * Gallery.ImageState N)) :
  Promise_all (fst (Gallery.formatEach env urls)) = Ok fulfilled ->
  List.length (Gallery.valuesInOrder (List.length urls) fulfilled) = List.length urls
  /\ (forall i e,
        nth_error (Gallery.valuesInOrder (List.length urls) fulfilled) i = Some e ->
        In (i, e) fulfilled
        /\ nth_error urls i = Some (Gallery.originalSrc e)
        /\ exists k,
             (k < List.length urls)%nat
             /\ nth_error (map fst (Gallery.loadOrder (Gallery.loadTime env) urls)) k = Some i
             /\ Gallery.id e = Gallery.randomUUID env (Gallery.uuidsDrawn env + k))
  /\ Gallery.uuidsDrawn (snd (Gallery.formatEach env urls))
     = (Gallery.uuidsDrawn env + List.length urls)%nat.
Proof.
  intros Hall. unfold Gallery.formatEach in *.
  set (events := Gallery.loadOrder (Gallery.loadTime env) urls) in *.
  assert (Hevents : List.length events = List.length urls) by apply loadOrder_length.
  destruct (Gallery_settleEach_ids events env) as [_ [_ Hok]].
  destruct (Hok fulfilled Hall) as [Hlen [Hnth Hdrawn]].
  rewrite Hevents in Hlen, Hdrawn.
  assert (Hcover : forall i, (i < List.length urls)%nat -> In i (map fst fulfilled)).
  { intros i Hi.
    destruct (nth_error urls i) as [url | ] eqn:Hu; [ | apply nth_error_None in Hu; lia].
    apply (loadOrder_In (Gallery.loadTime env)) in Hu. fold events in Hu.
    apply In_nth_error in Hu. destruct Hu as [k Hk].
    assert (Hkl : (k < List.length events)%nat) by (apply nth_error_Some; congruence).
    destruct (nth_error fulfilled k) as [[i' e] | ] eqn:Hf;
      [ | apply nth_error_None in Hf; lia].
    destruct (Hnth k i' e Hf) as [Hev _]. rewrite Hk in Hev. injection Hev as <- _.
    apply in_map_iff. exists (i, e). split; [reflexivity | ].
    eapply nth_error_In. exact Hf. }
  destruct (Gallery_valuesInOrder_nth fulfilled Hcover) as [Hvlen Hvnth].
  split; [exact Hvlen | ]. split; [ | exact Hdrawn].
  intros i e Hie. pose proof (Hvnth i e Hie) as Hin. split; [exact Hin | ].
  apply In_nth_error in Hin. destruct Hin as [k Hk]. destruct (Hnth k i e Hk) as [Hev Hid].
  split.
  - apply (loadOrder_In (Gallery.loadTime env) urls i). eapply nth_error_In. exact Hev.
  - exists k. split; [ | split; [ | exact Hid]].
    + rewrite <- Hevents. apply nth_error_Some. congruence.
    + rewrite nth_error_map. fold events. rewrite Hev. reflexivity.
Qed.

(** X6.  [handleFiles] of the gallery revision on a selection whose image
    files all read and decode, with the canvas mounted: whatever the
    gallery held, it now holds one entry per image file, in the order of
    the selection; each entry keeps the file's data URL as its original, and
    its formatted picture is exactly what [addBorderToImage] makes of that
    file alone on any canvas.  The ids are drawn as the images finish
    loading, not in the order of the selection: the entry at a position
    carries the draw whose number is the rank of that position in the load
    order, which runs through the positions of the batch once each.  No
    error is left, loading is off and the index is back at 0. *)
Theorem Gallery_handleFiles_fills_the_gallery
    {N : Type} `{JSNumber N} (env : Gallery.Env N) (c c0 : Canvas N)
    (files : list (File N)) (urls : list (DataUrl N)) (s : Gallery.AppState N) :
  Gallery.canvasRef env = Some c ->
  context2d c = true ->
  context2d c0 = true ->
  filter isImageFile files <> [] ->
  map (@file_data N) (filter isImageFile files) = map Some urls ->
  (forall url, In url urls -> loadImage url <> None) ->
  let later := Gallery.run (fst (Gallery.handleFiles env (Some files))) s in
  let order := map fst (Gallery.loadOrder (Gallery.loadTime env) urls) in
  map (@Gallery.originalSrc N) (Gallery.images later) = urls
  /\ map (fun e => Ok (Gallery.formattedSrc e)) (Gallery.images later)
     = map (fun url => fst (Gallery.addBorderToImage (Some c0) url)) urls
  /\ Permutation order (seq 0 (List.length urls))
  /\ (forall i e, nth_error (Gallery.images later) i = Some e ->
        exists k, nth_error order k = Some i
                  /\ Gallery.id e = Gallery.randomUUID env (Gallery.uuidsDrawn env + k))
  /\ Gallery.error later = None
  /\ Gallery.isLoading later = false
  /\ Gallery.currentImageIndex later = js_lit 0
  /\ Gallery.uuidsDrawn (snd (Gallery.handleFiles env (Some files)))
     = (Gallery.uuidsDrawn env + List.length urls)%nat.
Proof.
  intros Hcanvas Hc Hc0 Hsome Hdata Hdecode later order.
  subst later. unfold Gallery.handleFiles.
  destruct files as [ | f0 fs]; [exfalso; apply Hsome; reflexivity | ].
  destruct (filter isImageFile (f0 :: fs)) as [ | i0 l] eqn:Himg; [congruence | ].
  rewrite (readAll_fulfilled _ _ Hdata).
  unfold Gallery.processAndAddImages.
  destruct (@Gallery_settleEach_alone N _ (Gallery.loadOrder (Gallery.loadTime env) urls)
              env c c0 Hcanvas Hc Hc0) as [fulfilled [Hall Hfmt]].
  { intros i url Hin. apply Hdecode. apply loadOrder_In in Hin.
    eapply nth_error_In. exact Hin. }
  change (Gallery.settleEach env (Gallery.loadOrder (Gallery.loadTime env) urls))
    with (Gallery.formatEach env urls) in Hall.
  destruct (Gallery_formatEach_fulfilled urls env Hall) as [Hlen [Hvals Hdrawn]].
  destruct (Gallery.formatEach env urls) as [settled env']. cbn [fst snd] in *.
  rewrite Hall.
  cbn [Gallery.run fold_left app Gallery.apply Gallery.with_images Gallery.images
       Gallery.error Gallery.isLoading Gallery.currentImageIndex fst snd].
  set (values := Gallery.valuesInOrder (List.length urls) fulfilled) in *.
  split; [ | split; [ | split; [ | split]]].
  - apply nth_error_ext. intros i. rewrite nth_error_map.
    destruct (nth_error values i) as [e | ] eqn:He; cbn [option_map].
    + destruct (Hvals i e He) as [_ [Hu _]]. symmetry. exact Hu.
    + symmetry. apply nth_error_None. rewrite <- Hlen. apply nth_error_None. exact He.
  - apply nth_error_ext. intros i. rewrite !nth_error_map.
    destruct (nth_error values i) as [e | ] eqn:He; cbn [option_map].
    + destruct (Hvals i e He) as [Hin [Hu _]]. rewrite Hu. cbn [option_map].
      f_equal. symmetry. apply (Hfmt i e Hin).
    + replace (nth_error urls i) with (@None (DataUrl N)); [reflexivity | ].
      symmetry. apply nth_error_None. rewrite <- Hlen. apply nth_error_None. exact He.
  - apply loadOrder_positions.
  - intros i e He. destruct (Hvals i e He) as [_ [_ [k [_ [Hk Hid]]]]].
    exists k. split; assumption.
  - repeat split. exact Hdrawn.
Qed.

(** X6 at the batch of two pictures and a text file, dropped on a gallery
    that already holds two pictures, in a browser that finishes the second
    picture first. *)
Lemma Gallery_handleFiles_fills_the_gallery_witness :
  map (@Gallery.originalSrc Q)
    (Gallery.images
       (Gallery.run (fst (Gallery.handleFiles lastFirstPage (Some mixedBatch))) twoPictures))
  = [Photo 400 400 1; Photo 300 500 3].
Proof.
  refine (proj1
            (@Gallery_handleFiles_fills_the_gallery Q _ lastFirstPage (createCanvas true)
               (createCanvas true) mixedBatch [Photo 400 400 1; Photo 300 500 3] twoPictures
               _ _ _ _ _ _)).
  - vm_compute. reflexivity.
  - vm_compute. reflexivity.
  - vm_compute. reflexivity.
  - vm_compute. discriminate.
  - vm_compute. reflexivity.
  - intros url [<- | [<- | []]]; discriminate.
Defined.

(** There the picture selected second is given the first id drawn. *)
Lemma second_to_load_first_gets_the_first_id :
  map (@Gallery.id Q)
    (Gallery.images
       (Gallery.run (fst (Gallery.handleFiles lastFirstPage (Some mixedBatch))) twoPictures))
  = ["b"; "a"].
Proof.
  vm_compute. reflexivity.
Qed.

(** ** The ids of the gallery *)

Lemma NoDup_map_neverRepeats (f : nat -> string) (l : list nat) :
  neverRepeats f -> NoDup l -> NoDup (map f l).
Proof.
  intros Hinj Hnd. induction Hnd as [ | x l Hx Hnd IH]; [constructor | ].
  cbn [map]. constructor; [ | exact IH].
  intros Hin. apply in_map_iff in Hin. destruct Hin as [y [Hy Hiny]].
  apply Hinj in Hy. subst y. exact (Hx Hiny).
Qed.

Lemma Gallery_replaceCropped_ids {N : Type}
    (target : Gallery.ImageState N) (formatted cropped : DataUrl N)
    (l : list (Gallery.ImageState N)) :
  map (@Gallery.id N) (Gallery.replaceCropped target formatted cropped l)
  = map (@Gallery.id N) l.
Proof.
  unfold Gallery.replaceCropped. rewrite map_map. apply map_ext.
  intros e. destruct (String.eqb _ _); reflexivity.
Qed.

(** [knownIds] looks at the ids only, and survives more draws. *)
Lemma knownIds_by_ids {N : Type} (s s' : Gallery.AppState N) (env env' : Gallery.Env N) :
  map (@Gallery.id N) (Gallery.images s') = map (@Gallery.id N) (Gallery.images s) ->
  Gallery.randomUUID env' = Gallery.randomUUID env ->
  (Gallery.uuidsDrawn env <= Gallery.uuidsDrawn env')%nat ->
  knownIds s env -> knownIds s' env'.
Proof.
  intros Hids Huuid Hle [Hnd Hknown]. split.
  - rewrite Hids. exact Hnd.
  - intros e He.
    assert (Hin : In (Gallery.id e) (map (@Gallery.id N) (Gallery.images s)))
      by (rewrite <- Hids; apply in_map; exact He).
    apply in_map_iff in Hin. destruct Hin as [e0 [Heq He0]].
    destruct (Hknown e0 He0) as [i [Hi Hid]].
    exists i. split; [eapply Nat.lt_le_trans; eassumption | ].
    rewrite Huuid. congruence.
Qed.

(** Entries that carry draws of their own among the next ones can be
    appended. *)
Lemma knownIds_append {N : Type} (s s' : Gallery.AppState N) (env env' : Gallery.Env N)
    (old newImages : list (Gallery.ImageState N)) (n : nat) :
  neverRepeats (Gallery.randomUUID env) ->
  Gallery.images s' = old ++ newImages ->
  (old = [] \/ (old = Gallery.images s /\ knownIds s env)) ->
  NoDup (map (@Gallery.id N) newImages) ->
  (forall x, In x (map (@Gallery.id N) newImages) ->
     exists i, (Gallery.uuidsDrawn env <= i < Gallery.uuidsDrawn env + n)%nat
               /\ x = Gallery.randomUUID env i) ->
  Gallery.randomUUID env' = Gallery.randomUUID env ->
  Gallery.uuidsDrawn env' = (Gallery.uuidsDrawn env + n)%nat ->
  knownIds s' env'.
Proof.
  intros Hinj Himages Hold HndNew Hnew Huuid Hdrawn.
  split.
  - rewrite Himages, map_app. destruct Hold as [-> | [-> [Hnd Hknown]]].
    + exact HndNew.
    + apply NoDup_app; [exact Hnd | exact HndNew | ].
      intros x Hx Hx'. apply in_map_iff in Hx. destruct Hx as [e [<- He]].
      destruct (Hknown e He) as [i [Hi Hid]].
      destruct (Hnew _ Hx') as [j [Hj Hidj]].
      rewrite Hid in Hidj. apply Hinj in Hidj. subst j.
      destruct Hj as [Hj _]. apply (Nat.lt_irrefl i). eapply Nat.lt_le_trans; eassumption.
  - intros e He. rewrite Himages in He. apply in_app_or in He.
    rewrite Huuid, Hdrawn. destruct He as [He | He].
    + destruct Hold as [-> | [-> [_ Hknown]]]; [destruct He | ].
      destruct (Hknown e He) as [i [Hi Hid]]. exists i. split; [ | exact Hid].
      apply Nat.lt_le_trans with (1 := Hi). apply Nat.le_add_r.
    + destruct (Hnew (Gallery.id e) (in_map _ _ _ He)) as [i [[_ Hi] Hid]].
      exists i. split; assumption.
Qed.

(** Entries that carry the draws of distinct ranks carry distinct ids, all
    of them among the next draws. *)
Lemma Gallery_drawn_ids {N : Type} (randomUUID : nat -> string) (start n : nat)
    (order : list nat) (newImages : list (Gallery.ImageState N)) :
  neverRepeats randomUUID ->
  (forall i e, nth_error newImages i = Some e ->
     exists k, (k < n)%nat /\ nth_error order k = Some i
               /\ Gallery.id e = randomUUID (start + k)%nat) ->
  NoDup (map (@Gallery.id N) newImages)
  /\ forall x, In x (map (@Gallery.id N) newImages) ->
       exists j, (start <= j < start + n)%nat /\ x = randomUUID j.
Proof.
  intros Hinj Hrank. split.
  - apply NoDup_nth_error. intros a b Ha Heq.
    rewrite length_map in Ha. rewrite !nth_error_map in Heq.
    destruct (nth_error newImages a) as [ea | ] eqn:Hea;
      [ | apply nth_error_None in Hea; lia].
    destruct (nth_error newImages b) as [eb | ] eqn:Heb; [ | discriminate].
    cbn [option_map] in Heq. injection Heq as Hid.
    destruct (Hrank a ea Hea) as [ka [_ [Hka Hida]]].
    destruct (Hrank b eb Heb) as [kb [_ [Hkb Hidb]]].
    rewrite Hida, Hidb in Hid. apply Hinj in Hid.
    assert (Hk : ka = kb) by lia. subst kb. rewrite Hka in Hkb. injection Hkb as ->.
    reflexivity.
  - intros x Hx. apply in_map_iff in Hx. destruct Hx as [e [<- He]].
    apply In_nth_error in He. destruct He as [i Hi].
    destruct (Hrank i e Hi) as [k [Hk [_ Hid]]].
    exists (start + k)%nat. split; [lia | exact Hid].
Qed.

(** What [processAndAddImages] does to the gallery and to the draws. *)
Lemma Gallery_processAndAddImages_cases {N : Type} `{JSNumber N}
    (env : Gallery.Env N) (urls : list (DataUrl N)) :
  Gallery.randomUUID (snd (Gallery.processAndAddImages env urls)) = Gallery.randomUUID env
  /\ ((exists m,
         fst (Gallery.processAndAddImages env urls) = [Gallery.SetError (Some m)]
         /\ (Gallery.uuidsDrawn env
             <= Gallery.uuidsDrawn (snd (Gallery.processAndAddImages env urls)))%nat)
      \/ (exists newImages,
            fst (Gallery.processAndAddImages env urls)
            = [Gallery.UpdateImages (fun prev => prev ++ newImages)]
            /\ (forall i e, nth_error newImages i = Some e ->
                  nth_error urls i = Some (Gallery.originalSrc e)
                  /\ exists k,
                       (k < List.length urls)%nat
                       /\ nth_error (map fst (Gallery.loadOrder (Gallery.loadTime env) urls)) k
                          = Some i
                       /\ Gallery.id e
                          = Gallery.randomUUID env (Gallery.uuidsDrawn env + k))
            /\ Gallery.uuidsDrawn (snd (Gallery.processAndAddImages env urls))
               = (Gallery.uuidsDrawn env + List.length urls)%nat)).
Proof.
  unfold Gallery.processAndAddImages.
  pose proof (@Gallery_formatEach_fulfilled N _ urls env) as Hok.
  destruct (Gallery_settleEach_ids (Gallery.loadOrder (Gallery.loadTime env) urls) env)
    as [Huuid [Hle _]].
  change (Gallery.settleEach env (Gallery.loadOrder (Gallery.loadTime env) urls))
    with (Gallery.formatEach env urls) in Huuid, Hle.
  destruct (Gallery.formatEach env urls) as [settled env']. cbn [fst snd] in *.
  destruct (Promise_all settled) as [fulfilled | m].
  - cbn [fst snd]. split; [exact Huuid | ]. right. eexists. split; [reflexivity | ].
    destruct (Hok fulfilled eq_refl) as [_ [Hvals Hdrawn]].
    split; [ | exact Hdrawn].
    intros i e He. destruct (Hvals i e He) as [_ [Hu Hk]]. split; assumption.
  - cbn [fst snd]. split; [exact Huuid | ]. left. exists m. split; [reflexivity | exact Hle].
Qed.

(** X7.  The ids of the gallery stay distinct.  If [crypto.randomUUID()]
    never repeats itself and the entries carry distinct ids drawn from it,
    the same is true after [handleFiles], after [handleGenerate], after
    [handleApplyCrop] and after [handleCropClick], whatever their inputs
    and however they end. *)
Theorem gallery_ids_stay_distinct
    {N : Type} `{JSNumber N} (s : Gallery.AppState N) (env : Gallery.Env N)
    (files : option (list (File N))) (prompt : string) (aspectRatio : AspectRatio)
    (generateImage : string -> AspectRatio -> Result (DataUrl N)) (entryId : string) :
  neverRepeats (Gallery.randomUUID env) ->
  knownIds s env ->
  knownIds (Gallery.run (fst (Gallery.handleFiles env files)) s)
           (snd (Gallery.handleFiles env files))
  /\ knownIds (Gallery.run (fst (Gallery.handleGenerate s env prompt aspectRatio
                                   generateImage)) s)
              (snd (Gallery.handleGenerate s env prompt aspectRatio generateImage))
  /\ knownIds (Gallery.run (fst (Gallery.handleApplyCrop s env)) s)
              (snd (Gallery.handleApplyCrop s env))
  /\ knownIds (Gallery.run (Gallery.handleCropClick s entryId) s) env.
Proof.
  intros Hinj Hknown.
  assert (Hsame : forall s' env',
             Gallery.images s' = Gallery.images s ->
             Gallery.randomUUID env' = Gallery.randomUUID env ->
             (Gallery.uuidsDrawn env <= Gallery.uuidsDrawn env')%nat ->
             knownIds s' env').
  { intros s' env' Himg Huuid Hle.
    apply (@knownIds_by_ids N s s' env env'); [rewrite Himg; reflexivity | | | ]; assumption. }
  assert (Hempty : forall (s' : Gallery.AppState N) (env' : Gallery.Env N),
             Gallery.images s' = [] -> knownIds s' env').
  { intros s' env' Himg. split; rewrite Himg; [constructor | intros e []]. }
  split; [ | split; [ | split]].
  - (* handleFiles *)
    unfold Gallery.handleFiles.
    destruct files as [[ | f0 fs] | ]; try (apply Hsame; [reflexivity | reflexivity | apply Nat.le_refl]).
    destruct (filter isImageFile (f0 :: fs)) as [ | i l]; [apply Hempty; reflexivity | ].
    destruct (Promise_all _) as [urls | m]; [ | apply Hempty; reflexivity].
    destruct (Gallery_processAndAddImages_cases env urls)
      as [Huuid [[m [Hus Hle]] | [newImages [Hus [Hrank Hdrawn]]]]];
      destruct (Gallery.processAndAddImages env urls) as [us env']; cbn [fst snd] in *;
      subst us.
    + apply Hempty. reflexivity.
    + destruct (@Gallery_drawn_ids N (Gallery.randomUUID env) (Gallery.uuidsDrawn env)
                  (List.length urls)
                  (map fst (Gallery.loadOrder (Gallery.loadTime env) urls)) newImages Hinj)
        as [Hnd Hnew]; [intros pos e0 He0; apply (Hrank pos e0 He0) | ].
      apply (@knownIds_append N s _ env env' [] newImages (List.length urls));
        [exact Hinj | reflexivity | left; reflexivity | exact Hnd | exact Hnew
        | exact Huuid | exact Hdrawn].
  - (* handleGenerate *)
    unfold Gallery.handleGenerate.
    destruct (String.eqb prompt "");
      [apply Hsame; [reflexivity | reflexivity | apply Nat.le_refl] | ].
    destruct (generateImage prompt aspectRatio) as [url | m];
      [ | apply Hsame; [reflexivity | reflexivity | apply Nat.le_refl]].
    destruct (Gallery_processAndAddImages_cases env [url])
      as [Huuid [[m [Hus Hle]] | [newImages [Hus [Hrank Hdrawn]]]]];
      destruct (Gallery.processAndAddImages env [url]) as [us env']; cbn [fst snd] in *;
      subst us.
    + apply Hsame; [reflexivity | exact Huuid | exact Hle].
    + destruct (@Gallery_drawn_ids N (Gallery.randomUUID env) (Gallery.uuidsDrawn env)
                  (List.length [url])
                  (map fst (Gallery.loadOrder (Gallery.loadTime env) [url])) newImages Hinj)
        as [Hnd Hnew]; [intros pos e0 He0; apply (Hrank pos e0 He0) | ].
      apply (@knownIds_append N s _ env env' (Gallery.images s) newImages
               (List.length [url]));
        [exact Hinj | reflexivity | right; split; [reflexivity | exact Hknown]
        | exact Hnd | exact Hnew | exact Huuid | exact Hdrawn].
  - (* handleApplyCrop *)
    unfold Gallery.handleApplyCrop.
    destruct (Gallery.croppingImage s) as [target | ];
      [ | apply Hsame; [reflexivity | reflexivity | apply Nat.le_refl]].
    destruct (Gallery.completedCrop s) as [selection | ];
      [ | apply Hsame; [reflexivity | reflexivity | apply Nat.le_refl]].
    destruct (Gallery.imgRef env) as [img | ];
      [ | apply Hsame; [reflexivity | reflexivity | apply Nat.le_refl]].
    destruct (_ || _); [apply Hsame; [reflexivity | reflexivity | apply Nat.le_refl] | ].
    destruct (Gallery.getCroppedImg _ _ _) as [cropped | m];
      [ | apply Hsame; [reflexivity | reflexivity | apply Nat.le_refl]].
    destruct (Gallery.addBorderToImage _ _) as [[formatted | m] c'];
      [ | apply Hsame; [reflexivity | reflexivity | apply Nat.le_refl]].
    apply (@knownIds_by_ids N s _ env _);
      [apply Gallery_replaceCropped_ids | reflexivity | apply Nat.le_refl | exact Hknown].
  - (* handleCropClick *)
    apply Hsame; [ | reflexivity | apply Nat.le_refl].
    unfold Gallery.handleCropClick. destruct (find _ _); reflexivity.
Qed.

(** [tally] never repeats itself. *)
Lemma tally_neverRepeats : neverRepeats tally.
Proof.
  intros i. induction i as [ | i IH]; intros [ | j] Heq; try discriminate; [reflexivity | ].
  cbn [tally] in Heq. injection Heq as Heq. f_equal. apply IH. exact Heq.
Qed.

(** X7 at the first upload on a page whose ids never repeat. *)
Lemma gallery_ids_stay_distinct_witness :
  knownIds
    (Gallery.run (fst (Gallery.handleFiles tallyPage (Some mixedBatch))) Gallery.initialState)
    (snd (Gallery.handleFiles tallyPage (Some mixedBatch))).
Proof.
  refine (proj1
            (@gallery_ids_stay_distinct Q _ Gallery.initialState tallyPage (Some mixedBatch)
               "" Ratio_1_1 cannedService "" _ _)).
  - exact tally_neverRepeats.
  - split; [constructor | intros e []].
Defined.

(** ** More on applying a crop *)

(** A composition that fails says why and leaves the canvas as it was. *)
Lemma Gallery_addBorderToImage_rejected {N : Type} `{JSNumber N}
    (canvasRef : option (Canvas N)) (url : DataUrl N) (m : string) :
  fst (Gallery.addBorderToImage canvasRef url) = Err m ->
  m <> "" /\ snd (Gallery.addBorderToImage canvasRef url) = canvasRef.
Proof.
  unfold Gallery.addBorderToImage.
  destruct (loadImage url) as [image | ].
  - destruct canvasRef as [canvas | ].
    + destruct (context2d canvas); cbn [negb fst snd]; intros Hm; [discriminate | ].
      injection Hm as <-. split; [discriminate | reflexivity].
    + cbn [fst snd]. intros Hm. injection Hm as <-. split; [discriminate | reflexivity].
  - cbn [fst snd]. intros Hm. injection Hm as <-. split; [discriminate | reflexivity].
Qed.

(** The four ways [handleApplyCrop] can go. *)
Lemma Gallery_handleApplyCrop_cases {N : Type} `{JSNumber N}
    (s : Gallery.AppState N) (env : Gallery.Env N) :
  fst (Gallery.handleApplyCrop s env) = []
  \/ fst (Gallery.handleApplyCrop s env) = [Gallery.SetCroppingImage None]
  \/ (exists m,
        m <> ""
        /\ fst (Gallery.handleApplyCrop s env)
           = [Gallery.SetIsLoading true; Gallery.SetError (Some m); Gallery.SetIsLoading false]
        /\ Gallery.canvasRef (snd (Gallery.handleApplyCrop s env)) = Gallery.canvasRef env)
  \/ (exists target formatted cropped,
        fst (Gallery.handleApplyCrop s env)
        = [Gallery.SetIsLoading true;
           Gallery.UpdateImages (Gallery.replaceCropped target formatted cropped);
           Gallery.SetCroppingImage None;
           Gallery.SetIsLoading false]).
Proof.
  unfold Gallery.handleApplyCrop.
  destruct (Gallery.croppingImage s) as [target | ]; [ | left; reflexivity].
  destruct (Gallery.completedCrop s) as [selection | ]; [ | left; reflexivity].
  destruct (Gallery.imgRef env) as [img | ]; [ | left; reflexivity].
  destruct (_ || _); [right; left; reflexivity | ].
  destruct (Gallery.getCroppedImg (Gallery.has2d env) img selection) as [cropped | m] eqn:Hcrop.
  - pose proof (@Gallery_addBorderToImage_rejected N _ (Gallery.canvasRef env) cropped) as Hrej.
    destruct (Gallery.addBorderToImage (Gallery.canvasRef env) cropped) as [[formatted | m] c'].
    + right; right; right. do 3 eexists. reflexivity.
    + right; right; left. exists m. destruct (Hrej m eq_refl) as [Hm Hc].
      cbn [fst snd] in *. subst c'.
      split; [exact Hm | split; reflexivity].
  - right; right; left. exists m. split; [ | split; reflexivity].
    unfold Gallery.getCroppedImg in Hcrop.
    destruct (Gallery.has2d env); cbn [createCanvas context2d negb] in Hcrop;
      [discriminate | ].
    injection Hcrop as <-. discriminate.
Qed.

Lemma Gallery_replaceCropped_length {N : Type}
    (target : Gallery.ImageState N) (formatted cropped : DataUrl N)
    (l : list (Gallery.ImageState N)) :
  List.length (Gallery.replaceCropped target formatted cropped l) = List.length l.
Proof. unfold Gallery.replaceCropped. apply length_map. Qed.




(** X9.  [handleApplyCrop] never clears an error.  While an error message
    is set and the gallery is not empty, the preview shows the error box
    instead of the pictures, and it still does after [handleApplyCrop],
    whether the crop is dropped, fails (the message is then the new one) or
    goes through (the message is still the old one, and the gallery has as
    many entries as before). *)
Theorem crop_never_clears_the_error
    {N : Type} `{JSNumber N} (s : Gallery.AppState N) (env : Gallery.Env N) (m : string) :
  Gallery.error s = Some m ->
  m <> "" ->
  Gallery.images s <> [] ->
  let us := fst (Gallery.handleApplyCrop s env) in
  let later := Gallery.run us s in
  Gallery.preview s = Gallery.ErrorBox m
  /\ List.length (Gallery.images later) = List.length (Gallery.images s)
  /\ exists m',
       m' <> ""
       /\ Gallery.error later = Some m'
       /\ Gallery.preview later = Gallery.ErrorBox m'
       /\ (m' = m
           \/ us = [Gallery.SetIsLoading true; Gallery.SetError (Some m');
                    Gallery.SetIsLoading false]).
Proof.
  intros Herr Hm Himages us later.
  assert (Hshow : forall (st : Gallery.AppState N) (m0 : string),
             Gallery.error st = Some m0 -> m0 <> "" ->
             List.length (Gallery.images st) = List.length (Gallery.images s) ->
             Gallery.preview st = Gallery.ErrorBox m0).
  { intros st m0 He Hm0 Hlen. unfold Gallery.preview, Gallery.ImagePreview.
    rewrite Hlen, He.
    destruct (Gallery.images s) as [ | e l]; [congruence | ].
    cbn [List.length Nat.ltb Nat.leb Nat.eqb]. rewrite andb_false_r.
    unfold Gallery.truthy.
    destruct (String.eqb m0 "") eqn:Hq; [apply String.eqb_eq in Hq; congruence | ].
    reflexivity. }
  split; [apply Hshow; [exact Herr | exact Hm | reflexivity] | ].
  subst later us.
  destruct (Gallery_handleApplyCrop_cases s env)
    as [Hus | [Hus | [[m' [Hm' [Hus _]]] | [target [formatted [cropped Hus]]]]]];
    rewrite Hus;
    cbn [Gallery.run fold_left Gallery.apply Gallery.with_images Gallery.images Gallery.error].
  - split; [reflexivity | ]. exists m. split; [exact Hm | ]. split; [exact Herr | ].
    split; [apply Hshow; [exact Herr | exact Hm | reflexivity] | left; reflexivity].
  - split; [reflexivity | ]. exists m. split; [exact Hm | ]. split; [exact Herr | ].
    split; [apply Hshow; [exact Herr | exact Hm | reflexivity] | left; reflexivity].
  - split; [reflexivity | ]. exists m'. split; [exact Hm' | ]. split; [reflexivity | ].
    split; [apply Hshow; [reflexivity | exact Hm' | reflexivity] | right; reflexivity].
  - split; [apply Gallery_replaceCropped_length | ].
    exists m. split; [exact Hm | ]. split; [exact Herr | ].
    split; [ | left; reflexivity].
    apply Hshow; [exact Herr | exact Hm | apply Gallery_replaceCropped_length].
Qed.

(** X9 at the two-picture gallery with an error set. *)
Lemma crop_never_clears_the_error_witness :
  Gallery.preview (Gallery.apply (Gallery.SetError (Some "Failed to apply crop.")) twoPictures)
  = Gallery.ErrorBox "Failed to apply crop.".
Proof.
  refine (proj1
            (@crop_never_clears_the_error Q _
               (Gallery.apply (Gallery.SetError (Some "Failed to apply crop.")) twoPictures)
               pageAfterUpload "Failed to apply crop." _ _ _)).
  - vm_compute. reflexivity.
  - discriminate.
  - vm_compute. discriminate.
Defined.

(** X10.  [handleCropClick] opens the dialog on the first entry with the
    id, resets the percent crop and the aspect ratio, and leaves the gallery
    and the last completed selection alone.  So pressing Apply before a new
    selection is completed applies the selection completed in an earlier
    dialog to the entry just opened. *)
Theorem crop_click_keeps_the_last_completed_selection
    {N : Type} `{JSNumber N} (s : Gallery.AppState N) (env : Gallery.Env N)
    (entryId : string) (e : Gallery.ImageState N) (selection : Gallery.PixelCrop N) :
  find (fun img => String.eqb (Gallery.id img) entryId) (Gallery.images s) = Some e ->
  Gallery.completedCrop s = Some selection ->
  zeroArea selection = false ->
  let opened := Gallery.run (Gallery.handleCropClick s entryId) s in
  let env1 := Gallery.render opened env in
  Gallery.croppingImage opened = Some e
  /\ Gallery.id e = entryId
  /\ Gallery.images opened = Gallery.images s
  /\ Gallery.crop opened = None
  /\ Gallery.cropAspectRatio opened = None
  /\ Gallery.completedCrop opened = Some selection
  /\ exists img,
       Gallery.imgRef env1 = Some img
       /\ src img = Gallery.originalSrc e
       /\ forall cropped formatted,
            Gallery.getCroppedImg (Gallery.has2d env) img selection = Ok cropped ->
            fst (Gallery.addBorderToImage (Gallery.canvasRef env) cropped) = Ok formatted ->
            fst (Gallery.handleApplyCrop opened env1)
            = [Gallery.SetIsLoading true;
               Gallery.UpdateImages (Gallery.replaceCropped e formatted cropped);
               Gallery.SetCroppingImage None;
               Gallery.SetIsLoading false].
Proof.
  intros Hfind Hcompleted Harea opened env1.
  assert (Hopened : opened
                    = Gallery.run [Gallery.SetCroppingImage (Some e);
                                   Gallery.SetCropAspectRatio None;
                                   Gallery.SetCrop None] s).
  { subst opened. unfold Gallery.handleCropClick. rewrite Hfind. reflexivity. }
  assert (Hid : Gallery.id e = entryId).
  { apply find_some in Hfind. destruct Hfind as [_ Hq]. apply String.eqb_eq. exact Hq. }
  split; [rewrite Hopened; reflexivity | ].
  split; [exact Hid | ].
  split; [rewrite Hopened; reflexivity | ].
  split; [rewrite Hopened; reflexivity | ].
  split; [rewrite Hopened; reflexivity | ].
  split; [rewrite Hopened; exact Hcompleted | ].
  subst env1. unfold Gallery.render.
  replace (Gallery.croppingImage opened) with (Some e) by (rewrite Hopened; reflexivity).
  destruct (Gallery.layout env (Gallery.originalSrc e)) as [w h].
  eexists. split; [reflexivity | ].
  split; [destruct (loadImage (Gallery.originalSrc e)); reflexivity | ].
  intros cropped formatted Hcrop Hformat.
  unfold Gallery.handleApplyCrop.
  replace (Gallery.croppingImage opened) with (Some e) by (rewrite Hopened; reflexivity).
  replace (Gallery.completedCrop opened) with (Some selection)
    by (rewrite Hopened; symmetry; exact Hcompleted).
  cbn [Gallery.imgRef Gallery.with_imgRef Gallery.has2d Gallery.canvasRef].
  unfold zeroArea in Harea. rewrite Harea, Hcrop.
  destruct (Gallery.addBorderToImage (Gallery.canvasRef env) cropped) as [r c'].
  cbn [fst] in Hformat. subst r. reflexivity.
Qed.

(** X10 at the two-picture gallery with a selection left from before. *)
Lemma crop_click_keeps_the_last_completed_selection_witness :
  Gallery.completedCrop
    (Gallery.run
       (Gallery.handleCropClick
          (Gallery.apply (Gallery.SetCompletedCrop (Some (region 10 10 50 50))) twoPictures)
          "b")
       (Gallery.apply (Gallery.SetCompletedCrop (Some (region 10 10 50 50))) twoPictures))
  = Some (region 10 10 50 50).
Proof.
  refine (proj1 (proj2 (proj2 (proj2 (proj2 (proj2
            (@crop_click_keeps_the_last_completed_selection Q _
               (Gallery.apply (Gallery.SetCompletedCrop (Some (region 10 10 50 50)))
                  twoPictures)
               pageAfterUpload "b" _ (region 10 10 50 50) _ _ _))))))).
  - vm_compute. reflexivity.
  - vm_compute. reflexivity.
  - vm_compute. reflexivity.
Defined.

(** ** Generating, clearing and switching modes *)

(** X11.  [handleGenerate] adds to the gallery where [handleFiles] replaces
    it: when the service returns an image that decodes and the canvas is
    mounted, every entry stays where it was and exactly one entry is added
    at the end, with the generated image as its original, its composition
    as its formatted picture and the next unused id; the index points at
    the new entry, no error is left and loading is off. *)
Theorem handleGenerate_appends_one_entry
    {N : Type} `{JSNumber N} (s : Gallery.AppState N) (env : Gallery.Env N)
    (prompt : string) (aspectRatio : AspectRatio)
    (generateImage : string -> AspectRatio -> Result (DataUrl N))
    (c : Canvas N) (url : DataUrl N) (image : HTMLImageElement N) :
  prompt <> "" ->
  generateImage prompt aspectRatio = Ok url ->
  loadImage url = Some image ->
  Gallery.canvasRef env = Some c ->
  context2d c = true ->
  let later :=
    Gallery.run (fst (Gallery.handleGenerate s env prompt aspectRatio generateImage)) s in
  exists formatted,
    fst (Gallery.addBorderToImage (Some c) url) = Ok formatted
    /\ Gallery.images later
       = Gallery.images s
         ++ [{| Gallery.id := Gallery.randomUUID env (Gallery.uuidsDrawn env);
                Gallery.originalSrc := url;
                Gallery.formattedSrc := formatted |}]
    /\ Gallery.currentImageIndex later = Gallery.lengthOf (Gallery.images s)
    /\ nth_error (Gallery.images later) (List.length (Gallery.images s))
       = Some {| Gallery.id := Gallery.randomUUID env (Gallery.uuidsDrawn env);
                 Gallery.originalSrc := url;
                 Gallery.formattedSrc := formatted |}
    /\ Gallery.error later = None
    /\ Gallery.isLoading later = false
    /\ Gallery.uuidsDrawn
         (snd (Gallery.handleGenerate s env prompt aspectRatio generateImage))
       = S (Gallery.uuidsDrawn env).
Proof.
  intros Hprompt Hgen Hload Hcanvas Hc later.
  assert (Hok : exists formatted, Gallery.addBorderToImage (Some c) url
                                  = (Ok formatted, snd (Gallery.addBorderToImage (Some c) url))).
  { unfold Gallery.addBorderToImage. rewrite Hload, Hc. eexists. reflexivity. }
  destruct Hok as [formatted Hformatted].
  exists formatted. split; [rewrite Hformatted; reflexivity | ].
  subst later. unfold Gallery.handleGenerate.
  destruct (String.eqb prompt "") eqn:Hq; [apply String.eqb_eq in Hq; congruence | ].
  rewrite Hgen.
  unfold Gallery.processAndAddImages, Gallery.formatEach, Gallery.loadOrder,
    Gallery.valuesInOrder.
  cbn [List.length seq combine fold_right Gallery.insertByTime Gallery.settleEach].
  rewrite Hcanvas, Hformatted.
  cbn [Gallery.nextUUID Promise_all fst snd flat_map find Nat.eqb app].
  cbn [Gallery.run fold_left app Gallery.apply Gallery.with_images Gallery.images
       Gallery.error Gallery.isLoading Gallery.currentImageIndex Gallery.uuidsDrawn].
  repeat split.
  rewrite nth_error_app2 by apply Nat.le_refl. rewrite Nat.sub_diag. reflexivity.
Qed.

(** X11 at the two-picture gallery and a service that answers. *)
Lemma handleGenerate_appends_one_entry_witness :
  exists formatted,
    fst (Gallery.addBorderToImage (Some (createCanvas true)) (Photo 1024 1024 9)) = Ok formatted
    /\ Gallery.images
         (Gallery.run (fst (Gallery.handleGenerate twoPictures page "a lighthouse" Ratio_1_1
                              cannedService)) twoPictures)
       = Gallery.images twoPictures
         ++ [{| Gallery.id := Gallery.randomUUID page (Gallery.uuidsDrawn page);
                Gallery.originalSrc := Photo 1024 1024 9;
                Gallery.formattedSrc := formatted |}].
Proof.
  destruct (@handleGenerate_appends_one_entry Q _ twoPictures page "a lighthouse" Ratio_1_1
              cannedService (createCanvas true) (Photo 1024 1024 9)
              {| src := Photo 1024 1024 9; naturalWidth := 1024; naturalHeight := 1024;
                 width := 1024; height := 1024 |})
    as [formatted [Hformatted [Himages _]]].
  - discriminate.
  - reflexivity.
  - reflexivity.
  - reflexivity.
  - reflexivity.
  - exists formatted. split; assumption.
Defined.

(** X12.  A generation that fails keeps the gallery: with an empty prompt
    [handleGenerate] does nothing at all; when the service fails, its
    message is reported; when the image it returns does not decode, The
    image file could not be loaded. is reported and the index is moved to
    [images.length] all the same, one past the last entry.  In both
    failures every entry stays and loading is off. *)
Theorem handleGenerate_failure_keeps_the_gallery
    {N : Type} `{JSNumber N} (s : Gallery.AppState N) (env : Gallery.Env N)
    (prompt : string) (aspectRatio : AspectRatio)
    (generateImage : string -> AspectRatio -> Result (DataUrl N)) :
  let later :=
    Gallery.run (fst (Gallery.handleGenerate s env prompt aspectRatio generateImage)) s in
  (prompt = "" ->
   Gallery.handleGenerate s env prompt aspectRatio generateImage = ([], env))
  /\ (forall m, prompt <> "" -> generateImage prompt aspectRatio = Err m ->
      Gallery.images later = Gallery.images s
      /\ Gallery.error later = Some m
      /\ Gallery.isLoading later = false
      /\ Gallery.currentImageIndex later = Gallery.currentImageIndex s)
  /\ (forall url, prompt <> "" -> generateImage prompt aspectRatio = Ok url ->
      loadImage url = None ->
      Gallery.images later = Gallery.images s
      /\ Gallery.error later = Some "The image file could not be loaded."
      /\ Gallery.isLoading later = false
      /\ Gallery.currentImageIndex later = Gallery.lengthOf (Gallery.images s)
      /\ nth_error (Gallery.images later) (List.length (Gallery.images s)) = None).
Proof.
  intros later. subst later. unfold Gallery.handleGenerate.
  split; [intros ->; reflexivity | ].
  split.
  - intros m Hprompt Hgen.
    destruct (String.eqb prompt "") eqn:Hq; [apply String.eqb_eq in Hq; congruence | ].
    rewrite Hgen. repeat split.
  - intros url Hprompt Hgen Hload.
    destruct (String.eqb prompt "") eqn:Hq; [apply String.eqb_eq in Hq; congruence | ].
    rewrite Hgen.
    unfold Gallery.processAndAddImages, Gallery.formatEach, Gallery.loadOrder.
    cbn [List.length seq combine fold_right Gallery.insertByTime Gallery.settleEach].
    unfold Gallery.addBorderToImage. rewrite Hload. cbn [Promise_all fst snd].
    cbn [Gallery.run fold_left app Gallery.apply Gallery.with_images Gallery.images
         Gallery.error Gallery.isLoading Gallery.currentImageIndex].
    repeat split. apply nth_error_None. apply Nat.le_refl.
Qed.

(** X12 at the two-picture gallery and a service whose answer does not
    decode. *)
Lemma handleGenerate_failure_keeps_the_gallery_witness :
  Gallery.images
    (Gallery.run (fst (Gallery.handleGenerate twoPictures page "a lighthouse" Ratio_1_1
                         garbledService)) twoPictures)
  = Gallery.images twoPictures.
Proof.
  refine (proj1 (proj2 (proj2
            (@handleGenerate_failure_keeps_the_gallery Q _ twoPictures page "a lighthouse"
               Ratio_1_1 garbledService)) (Corrupt 9) _ _ _)).
  - discriminate.
  - reflexivity.
  - reflexivity.
Defined.

(** X13.  [handleModeChange] sets the mode; to the mode already selected it
    changes nothing else, to the other mode it also runs [handleClear]:
    the gallery is emptied, error and loading are cleared, the index and
    the prompt are reset.  [handleClear] touches neither the crop dialog
    nor the completed selection, and running it twice is running it once. *)
Theorem handleModeChange_clears_on_a_new_mode
    {N : Type} `{JSNumber N} (ui : Gallery.Ui N) (newMode : Gallery.Mode) :
  let ui' := Gallery.runUi (Gallery.handleModeChange ui newMode) ui in
  let cleared := Gallery.runUi Gallery.handleClear ui in
  Gallery.ui_mode ui' = newMode
  /\ (Gallery.ui_mode ui = newMode -> ui' = ui)
  /\ (Gallery.ui_mode ui <> newMode ->
      Gallery.ui_state ui' = Gallery.ui_state cleared
      /\ Gallery.ui_prompt ui' = "A cute baby sea otter floating on its back")
  /\ Gallery.images (Gallery.ui_state cleared) = []
  /\ Gallery.error (Gallery.ui_state cleared) = None
  /\ Gallery.isLoading (Gallery.ui_state cleared) = false
  /\ Gallery.currentImageIndex (Gallery.ui_state cleared) = js_lit 0
  /\ Gallery.croppingImage (Gallery.ui_state cleared)
     = Gallery.croppingImage (Gallery.ui_state ui)
  /\ Gallery.completedCrop (Gallery.ui_state cleared)
     = Gallery.completedCrop (Gallery.ui_state ui)
  /\ Gallery.runUi Gallery.handleClear cleared = cleared
  /\ Gallery.runUi (Gallery.handleModeChange ui' newMode) ui' = ui'.
Proof.
  intros ui' cleared. subst ui' cleared. unfold Gallery.handleModeChange.
  destruct ui as [st mode prompt]. cbn [Gallery.ui_mode].
  split; [destruct mode, newMode; reflexivity | ].
  split; [intros ->; destruct newMode; reflexivity | ].
  split; [intros Hne; destruct mode, newMode; try congruence; split; reflexivity | ].
  repeat (split; [reflexivity | ]).
  destruct mode, newMode; reflexivity.
Qed.

(** ** The single-image revision *)

(** X14.  [handleFile] of the first revision, seen through its preview.
    A file of another type only sets the error: the picture formatted
    before stays in the state.  An image file that reads and decodes while
    the canvas is missing, or has no 2d context, leaves loading on, so the
    preview keeps showing the spinner and never the error message.  When
    the bytes do not decode, or the read fails, loading is turned off and
    the error box is shown. *)
Theorem Single_handleFile_outcomes
    {N : Type} `{JSNumber N} (s : Single.AppState N) (canvasRef : option (Canvas N))
    (file : File N) :
  let later := Single.run (fst (Single.handleFile canvasRef (Some file))) s in
  (isImageFile file = false ->
   Single.formattedImageUrl later = Single.formattedImageUrl s
   /\ Single.originalImage later = Single.originalImage s
   /\ Single.isLoading later = Single.isLoading s
   /\ Single.error later
      = Some "Invalid file type. Please upload an image (e.g., JPEG, PNG, GIF).")
  /\ (forall url image,
        isImageFile file = true -> file_data file = Some url -> loadImage url = Some image ->
        (canvasRef = None \/ exists c, canvasRef = Some c /\ context2d c = false) ->
        Single.isLoading later = true
        /\ Single.preview later = Single.Spinner
        /\ (exists m, Single.error later = Some m)
        /\ Single.formattedImageUrl later = Single.formattedImageUrl s)
  /\ (isImageFile file = true ->
      (file_data file = None
       \/ exists url, file_data file = Some url /\ loadImage url = None) ->
      Single.isLoading later = false
      /\ (exists m, Single.preview later = Single.ErrorBox m)
      /\ Single.formattedImageUrl later = Single.formattedImageUrl s).
Proof.
  intros later. subst later. unfold Single.handleFile.
  assert (Htype : isImageFile file = true -> negb (String.eqb (file_type file) "") = true).
  { unfold isImageFile. destruct (file_type file); [discriminate | reflexivity]. }
  split; [ | split].
  - intros Hother. rewrite Hother, andb_false_r. repeat split.
  - intros url image Himage Hdata Hload Hcanvas.
    rewrite Himage, (Htype Himage), Hdata. cbn [andb].
    unfold Single.processAndSetImage. rewrite Hload.
    destruct Hcanvas as [-> | [c [-> Hc]]]; [ | rewrite Hc; cbn [negb]];
      (split; [reflexivity | ]); (split; [reflexivity | ]);
      (split; [eexists; reflexivity | reflexivity]).
  - intros Himage Hbad.
    rewrite Himage, (Htype Himage). cbn [andb].
    destruct Hbad as [Hnodata | [url [Hdata Hload]]].
    + rewrite Hnodata. split; [reflexivity | ]. split; [eexists; reflexivity | reflexivity].
    + rewrite Hdata. unfold Single.processAndSetImage. rewrite Hload.
      split; [reflexivity | ]. split; [eexists; reflexivity | reflexivity].
Qed.

(** X14 at an image file selected while no canvas is mounted. *)
Lemma Single_handleFile_outcomes_witness :
  Single.preview
    (Single.run (fst (Single.handleFile None (Some (pngFile 400 400 1)))) Single.initialState)
  = Single.Spinner.
Proof.
  refine (proj1 (proj2 (proj1 (proj2
            (@Single_handleFile_outcomes Q _ Single.initialState None (pngFile 400 400 1)))
            (Photo 400 400 1)
            {| src := Photo 400 400 1; naturalWidth := 400; naturalHeight := 400;
               width := 400; height := 400 |} _ _ _ _))).
  - reflexivity.
  - reflexivity.
  - reflexivity.
  - left. reflexivity.
Defined.

(** ** Loading *)

(** X15.  In the two later revisions no handler leaves loading on:
    [handleFiles] on a non-empty selection and [handleGenerate] on a
    non-empty prompt end with loading off whatever happens in between, and
    [handleApplyCrop] either ends with loading off or does not touch it. *)
Theorem loading_is_never_left_on
    {N : Type} `{JSNumber N} (env : Gallery.Env N) (canvasRef : option (Canvas N))
    (f : File N) (fs : list (File N)) (s : Gallery.AppState N) (b : Batch.AppState N)
    (prompt : string) (aspectRatio : AspectRatio)
    (generateImage : string -> AspectRatio -> Result (DataUrl N)) :
  Gallery.isLoading (Gallery.run (fst (Gallery.handleFiles env (Some (f :: fs)))) s) = false
  /\ Batch.isLoading (Batch.run (fst (Batch.handleFiles canvasRef (Some (f :: fs)))) b) = false
  /\ (prompt = ""
      \/ Gallery.isLoading
           (Gallery.run (fst (Gallery.handleGenerate s env prompt aspectRatio generateImage)) s)
         = false)
  /\ (Gallery.isLoading (Gallery.run (fst (Gallery.handleApplyCrop s env)) s) = false
      \/ Gallery.isLoading (Gallery.run (fst (Gallery.handleApplyCrop s env)) s)
         = Gallery.isLoading s).
Proof.
  split; [ | split; [ | split]].
  - destruct (Gallery_handleFiles_cases env f fs) as [[m ->] | [newImages ->]]; reflexivity.
  - destruct (Batch_handleFiles_cases canvasRef f fs) as [[m ->] | [processedUrls ->]];
      reflexivity.
  - unfold Gallery.handleGenerate.
    destruct (String.eqb prompt "") eqn:Hq; [left; apply String.eqb_eq; exact Hq | right].
    destruct (generateImage prompt aspectRatio) as [url | m]; [ | reflexivity].
    destruct (Gallery_processAndAddImages_cases env [url])
      as [_ [[m [Hus _]] | [newImages [Hus _]]]];
      destruct (Gallery.processAndAddImages env [url]) as [us env']; cbn [fst] in *;
      subst us; reflexivity.
  - destruct (Gallery_handleApplyCrop_cases s env)
      as [Hus | [Hus | [[m' [_ [Hus _]]] | [target [formatted [cropped Hus]]]]]];
      rewrite Hus; first [left; reflexivity | right; reflexivity].
Qed.

(** ** One entry, one id *)

Lemma nth_error_same_id {N : Type} (l : list (Gallery.ImageState N)) (i j : nat)
    (t e : Gallery.ImageState N) :
  NoDup (map (@Gallery.id N) l) ->
  nth_error l i = Some t -> nth_error l j = Some e -> Gallery.id e = Gallery.id t -> j = i.
Proof.
  intros Hnd Hi Hj Hid.
  apply (proj1 (NoDup_nth_error (map (@Gallery.id N) l)) Hnd).
  - rewrite length_map. apply nth_error_Some. congruence.
  - rewrite !nth_error_map, Hi, Hj. cbn [option_map]. congruence.
Qed.

(** X16.  With distinct ids, a crop that goes through changes exactly one
    entry: the entry the dialog was opened on gets the cropped original and
    its composition, at its position, and every other position of the
    gallery holds what it held before. *)
Theorem crop_changes_exactly_one_entry
    {N : Type} `{JSNumber N} (s : Gallery.AppState N) (env : Gallery.Env N)
    (target : Gallery.ImageState N) (selection : Gallery.PixelCrop N)
    (img : HTMLImageElement N) (croppedImageUrl newlyFormattedUrl : DataUrl N) (i : nat) :
  knownIds s env ->
  nth_error (Gallery.images s) i = Some target ->
  Gallery.croppingImage s = Some target ->
  Gallery.completedCrop s = Some selection ->
  Gallery.imgRef env = Some img ->
  zeroArea selection = false ->
  Gallery.getCroppedImg (Gallery.has2d env) img selection = Ok croppedImageUrl ->
  fst (Gallery.addBorderToImage (Gallery.canvasRef env) croppedImageUrl)
  = Ok newlyFormattedUrl ->
  let later := Gallery.run (fst (Gallery.handleApplyCrop s env)) s in
  nth_error (Gallery.images later) i
  = Some {| Gallery.id := Gallery.id target;
            Gallery.originalSrc := croppedImageUrl;
            Gallery.formattedSrc := newlyFormattedUrl |}
  /\ (forall j, j <> i ->
        nth_error (Gallery.images later) j = nth_error (Gallery.images s) j)
  /\ knownIds later (snd (Gallery.handleApplyCrop s env)).
Proof.
  intros Hknown Hnth Hcropping Hcompleted Himg Harea Hcrop Hformat later.
  pose proof (@Gallery_handleApplyCrop_fulfilled N _ s env target selection img
                croppedImageUrl newlyFormattedUrl Hcropping Hcompleted Himg Harea
                Hcrop Hformat) as Hus.
  assert (Himages : Gallery.images later
                    = Gallery.replaceCropped target newlyFormattedUrl croppedImageUrl
                        (Gallery.images s)).
  { subst later. rewrite Hus. reflexivity. }
  split; [ | split].
  - rewrite Himages. unfold Gallery.replaceCropped.
    rewrite nth_error_map, Hnth. cbn [option_map]. rewrite String.eqb_refl. reflexivity.
  - intros j Hj. rewrite Himages. unfold Gallery.replaceCropped. rewrite nth_error_map.
    destruct (nth_error (Gallery.images s) j) as [e | ] eqn:He; [ | reflexivity].
    cbn [option_map].
    destruct (String.eqb (Gallery.id e) (Gallery.id target)) eqn:Hq; [ | reflexivity].
    exfalso. apply Hj. apply String.eqb_eq in Hq.
    exact (nth_error_same_id _ i j (proj1 Hknown) Hnth He Hq).
  - apply (@knownIds_by_ids N s later env _); [ | | | exact Hknown].
    + rewrite Himages. apply Gallery_replaceCropped_ids.
    + unfold Gallery.handleApplyCrop. rewrite Hcropping, Hcompleted, Himg.
      unfold zeroArea in Harea. rewrite Harea, Hcrop.
      destruct (Gallery.addBorderToImage _ _) as [[f | m] c']; reflexivity.
    + unfold Gallery.handleApplyCrop. rewrite Hcropping, Hcompleted, Himg.
      unfold zeroArea in Harea. rewrite Harea, Hcrop.
      destruct (Gallery.addBorderToImage _ _) as [[f | m] c']; apply Nat.le_refl.
Qed.

(** The two uploaded pictures carry distinct ids. *)
Lemma tallyDialog_knownIds : knownIds tallyDialog tallyDialogPage.
Proof.
  split.
  - vm_compute. constructor; [intros [Heq | []]; discriminate | ].
    constructor; [intros [] | constructor].
  - intros e He. vm_compute in He. destruct He as [<- | [<- | []]].
    + exists 0%nat. split; [vm_compute; repeat constructor | reflexivity].
    + exists 1%nat. split; [vm_compute; repeat constructor | reflexivity].
Qed.

(** X16 at the dialog opened on the second of two pictures: the first one
    is untouched. *)
Lemma crop_changes_exactly_one_entry_witness :
  nth_error
    (Gallery.images
       (Gallery.run (fst (Gallery.handleApplyCrop tallyDialog tallyDialogPage)) tallyDialog))
    0
  = nth_error (Gallery.images tallyDialog) 0.
Proof.
  refine (proj1 (proj2
            (@crop_changes_exactly_one_entry Q _ tallyDialog tallyDialogPage
               _ _ _ _ _ 1 tallyDialog_knownIds _ _ _ _ _ _ _)) 0%nat _);
    try (vm_compute; reflexivity).
  discriminate.
Defined.

(** X17.  [handleGenerate] of the first revision discards the picture on
    display before it asks the service, where [handleFile] keeps it: with a
    prompt, a failing service leaves no picture and no original, the
    service's message in the error box and loading off; without a prompt
    only the error is set and the picture stays. *)
Theorem Single_handleGenerate_discards_the_picture
    {N : Type} `{JSNumber N} (s : Single.AppState N) (canvasRef : option (Canvas N))
    (prompt : string) (aspectRatio : AspectRatio)
    (generateImage : string -> AspectRatio -> Result (DataUrl N)) :
  let later :=
    Single.run (fst (Single.handleGenerate canvasRef prompt aspectRatio generateImage)) s in
  (prompt = "" ->
   Single.formattedImageUrl later = Single.formattedImageUrl s
   /\ Single.originalImage later = Single.originalImage s
   /\ Single.isLoading later = Single.isLoading s
   /\ Single.error later = Some "Please enter a prompt to generate an image.")
  /\ (forall m, prompt <> "" -> generateImage prompt aspectRatio = Err m ->
      Single.formattedImageUrl later = None
      /\ Single.originalImage later = None
      /\ Single.error later = Some m
      /\ Single.isLoading later = false
      /\ (m <> "" -> Single.preview later = Single.ErrorBox m))
  /\ (forall url, prompt <> "" -> generateImage prompt aspectRatio = Ok url ->
      loadImage url = None ->
      Single.formattedImageUrl later = None
      /\ Single.originalImage later = None
      /\ Single.isLoading later = false
      /\ exists m, Single.preview later = Single.ErrorBox m).
Proof.
  intros later. subst later. unfold Single.handleGenerate.
  split; [intros ->; repeat split | ].
  split.
  - intros m Hprompt Hgen.
    destruct (String.eqb prompt "") eqn:Hq; [apply String.eqb_eq in Hq; congruence | ].
    rewrite Hgen. repeat (split; [reflexivity | ]).
    intros Hm. unfold Single.preview, Single.ImagePreview, Single.truthy.
    cbn [Single.run fold_left Single.apply Single.isLoading Single.error fst].
    destruct (String.eqb m "") eqn:Hmq; [apply String.eqb_eq in Hmq; congruence | ].
    reflexivity.
  - intros url Hprompt Hgen Hload.
    destruct (String.eqb prompt "") eqn:Hq; [apply String.eqb_eq in Hq; congruence | ].
    rewrite Hgen. unfold Single.processAndSetImage. rewrite Hload.
    repeat (split; [reflexivity | ]). eexists. reflexivity.
Qed.

(** X17 at a picture on display and a service that is down. *)
Lemma Single_handleGenerate_discards_the_picture_witness :
  Single.formattedImageUrl
    (Single.run (fst (Single.handleGenerate (Some (createCanvas true)) "a lighthouse"
                        Ratio_1_1 failingService))
       {| Single.originalImage := Some (Photo 400 400 1);
          Single.formattedImageUrl := Some (Photo 1080 1080 2);
          Single.isLoading := false; Single.error := None |})
  = None.
Proof.
  refine (proj1 (proj1 (proj2
            (@Single_handleGenerate_discards_the_picture Q _
               {| Single.originalImage := Some (Photo 400 400 1);
                  Single.formattedImageUrl := Some (Photo 1080 1080 2);
                  Single.isLoading := false; Single.error := None |}
               (Some (createCanvas true)) "a lighthouse" Ratio_1_1 failingService))
            "The service is unavailable." _ _)).
  - discriminate.
  - reflexivity.
Defined.

(** X18.  A crop in progress never hides a non-empty gallery behind the
    spinner: in every state the preview goes through while the updates of
    [handleApplyCrop] are applied, it shows the pictures or the error box,
    since the spinner is only shown for an empty gallery. *)
Theorem crop_never_shows_the_spinner
    {N : Type} `{JSNumber N} (s : Gallery.AppState N) (env : Gallery.Env N) :
  Gallery.images s <> [] ->
  forall st, In st (Gallery.states (fst (Gallery.handleApplyCrop s env)) s) ->
    Gallery.images st <> []
    /\ ((exists m, Gallery.preview st = Gallery.ErrorBox m)
        \/ Gallery.preview st = Gallery.Carousel (Gallery.images st)).
Proof.
  intros Himages st Hin.
  assert (Hlen : List.length (Gallery.images st) = List.length (Gallery.images s)).
  { destruct (Gallery_handleApplyCrop_cases s env)
      as [Hus | [Hus | [[m' [_ [Hus _]]] | [target [formatted [cropped Hus]]]]]];
      rewrite Hus in Hin; cbn [Gallery.states In] in Hin.
    - destruct Hin as [<- | []]. reflexivity.
    - destruct Hin as [<- | [<- | []]]; reflexivity.
    - destruct Hin as [<- | [<- | [<- | [<- | []]]]]; reflexivity.
    - destruct Hin as [<- | [<- | [<- | [<- | [<- | []]]]]];
        first [reflexivity | apply Gallery_replaceCropped_length]. }
  assert (Hsome : Gallery.images st <> []).
  { intros Hnil. rewrite Hnil in Hlen. destruct (Gallery.images s); [congruence | discriminate]. }
  split; [exact Hsome | ].
  unfold Gallery.preview, Gallery.ImagePreview.
  destruct (Gallery.images st) as [ | e l]; [congruence | ].
  cbn [List.length Nat.ltb Nat.leb Nat.eqb]. rewrite andb_false_r.
  destruct (Gallery.truthy (Gallery.error st)) as [m | ].
  - left. exists m. reflexivity.
  - right. reflexivity.
Qed.

(** X18 at the first state of a crop on the two-picture gallery. *)
Lemma crop_never_shows_the_spinner_witness :
  (exists m, Gallery.preview dialogOnB = Gallery.ErrorBox m)
  \/ Gallery.preview dialogOnB = Gallery.Carousel (Gallery.images dialogOnB).
Proof.
  refine (proj2 (@crop_never_shows_the_spinner Q _ dialogOnB pageWithDialog _ dialogOnB _)).
  - vm_compute. discriminate.
  - vm_compute. left. reflexivity.
Defined.

